(** * Jsoncut MCP server: a shallow embedding of the tool handlers and of the
      HTTP session multiplexer

    Two programs are embedded:
    - [Stdio]: the single-user server of [src/index.ts] (process-wide
      credential, configuration builders with defaults, validation with a
      formatted report);
    - [Http]: the multi-user server of [unnamed/part_001] (one
      [JsoncutMCPServer] per session, pass-through builders, the [/mcp]
      POST, GET and DELETE routes over the [sessions] map).

    JavaScript values are modelled as JSON trees with [undefined] added;
    numbers are the integer-valued doubles and strings are byte strings.  What
    the language runtime and the libraries provide ([JSON.parse],
    [JSON.stringify], the printing of numbers beyond 2^53, string-to-number
    coercion, [toFixed], the wording of the engine's TypeErrors, the remote
    endpoint behind [axios]) is gathered in the record [Runtime]: the
    handlers call it, and every theorem holds for every runtime.  The
    conversions the language itself makes (ToBoolean, ToString, ToPrimitive,
    property reads, destructuring) are written out, with the TypeErrors they
    throw. *)

From Stdlib Require Import ZArith Ascii DecimalString.
From stdpp Require Import base strings list gmap.

Open Scope string_scope.
Set Warnings "-register-all".

(** ** JavaScript values *)

Inductive value : Type :=
| JUndefined
| JNull
| JBool (b : bool)
| JNum (n : Z)
| JStr (s : string)
| JArr (items : list value)
| JObj (fields : list (string * value)).

(** Own properties of an object literal, in insertion order. *)
Abbreviation obj := (list (string * value)).

(** An HTTP response as [axios] presents it. *)
Record HttpResponse := {
  status : Z;
  statusText : string;
  data : value
}.

(** What a [throw] carries: an [Error] made by the handlers, a [TypeError]
    of the engine (reading a property of [undefined] or [null], destructuring
    [undefined] or [null], calling what is no function, converting to a
    primitive an object that has no usable [toString]), or the rejection of
    an [axios] call, which alone may have a [response]. *)
Inductive type_error : Type :=
| CannotRead (v : value) (k : string)
| CannotDestructure (v : value) (k : string)
| NotAFunction (callee : string)
| CannotConvert.

Inductive exn : Type :=
| Error (message : string)
| TypeError (what : type_error)
| AxiosError (message : string) (response : option HttpResponse).

Definition exn_response (e : exn) : option HttpResponse :=
  match e with
  | AxiosError _ r => r
  | _ => None
  end.

(** Completion of a JavaScript computation: a value or a thrown exception. *)
Inductive res (A : Type) : Type :=
| Ok (a : A)
| Throw (e : exn).
Arguments Ok {A} a.
Arguments Throw {A} e.

Definition res_bind {A B} (m : res A) (k : A -> res B) : res B :=
  match m with
  | Ok a => k a
  | Throw e => Throw e
  end.

Notation "x <- m ;; k" := (res_bind m (fun x => k))
  (at level 100, m at next level, right associativity).

(** ToBoolean *)
Definition truthy (v : value) : bool :=
  match v with
  | JUndefined | JNull => false
  | JBool b => b
  | JNum n => negb (n =? 0)%Z
  | JStr s => negb (String.eqb s "")
  | JArr _ | JObj _ => true
  end.

(** [a || b] *)
Definition js_or (a b : value) : value := if truthy a then a else b.

(** [v !== undefined] *)
Definition defined (v : value) : bool :=
  match v with
  | JUndefined => false
  | _ => true
  end.

Fixpoint obj_get (o : obj) (k : string) : option value :=
  match o with
  | [] => None
  | (k', v) :: rest => if String.eqb k' k then Some v else obj_get rest k
  end.

(** [o.k = v]: replaces the property in place or appends it. *)
Fixpoint assign (k : string) (v : value) (o : obj) : obj :=
  match o with
  | [] => [(k, v)]
  | (k', v') :: rest =>
      if String.eqb k' k then (k, v) :: rest else (k', v') :: assign k v rest
  end.

(** [if (c) o.k = v;] *)
Definition assign_when (c : bool) (k : string) (v : value) (o : obj) : obj :=
  if c then assign k v o else o.

Definition keys (o : obj) : list string := map fst o.

(** [o.k] on an object: [undefined] for a property it does not have. *)
Definition field (o : obj) (k : string) : value :=
  match obj_get o k with
  | Some x => x
  | None => JUndefined
  end.

(** [const { k, ... } = v]: the check made before any property is read;
    [k] is the first name of the pattern. *)
Definition destructurable (v : value) (k : string) : res unit :=
  match v with
  | JUndefined | JNull => Throw (TypeError (CannotDestructure v k))
  | _ => Ok tt
  end.

(** [v.k] for the property names the handlers read.  None of them is a
    member of a prototype except [length], which arrays and strings have. *)
Definition get (v : value) (k : string) : res value :=
  match v with
  | JUndefined | JNull => Throw (TypeError (CannotRead v k))
  | JObj o => Ok (field o k)
  | JArr xs =>
      Ok (if String.eqb k "length" then JNum (Z.of_nat (length xs)) else JUndefined)
  | JStr s =>
      Ok (if String.eqb k "length" then JNum (Z.of_nat (String.length s)) else JUndefined)
  | JBool _ | JNum _ => Ok JUndefined
  end.

(** The decimal digits of an integer. *)
Definition Z_to_string (n : Z) : string := NilZero.string_of_int (Z.to_int n).

Definition nl : string := String (Ascii.ascii_of_nat 10) EmptyString.

(** ** The runtime and the outside world *)

(** An outbound [axiosInstance.post(url, body, {headers: {'x-api-key': key}})]. *)
Record HttpRequest := {
  url : string;
  body : value;
  api_key_header : value
}.

(** How the promise of [axios.post] settles: fulfilled with the response of a
    2xx answer, or rejected (with the response of a non-2xx answer, or with
    none when the endpoint was not reached). *)
Inductive AxiosOutcome : Type :=
| Fulfilled (r : HttpResponse)
| Rejected (message : string) (response : option HttpResponse).

Record Runtime := {
  (** [JSON.parse(s)]; [None] when it throws a SyntaxError *)
  JSON_parse : string -> option value;
  (** [JSON.stringify(v, null, 2)]; [None] when it returns [undefined] *)
  JSON_stringify : value -> option string;
  (** Number-to-string conversion of a number above 2^53 in magnitude: the
      shortest digits that read back as the same double, in exponent form
      from 1e21 *)
  large_number_to_string : Z -> string;
  (** [s > 0] for a string [s] (ToNumber, then the comparison) *)
  string_gt0 : string -> bool;
  (** [(v / 1024 / 1024).toFixed(2)] for a primitive [v] *)
  megabytes_fixed2 : value -> string;
  (** the [message] the engine gives a [TypeError] *)
  type_error_message : type_error -> string;
  (** the remote validation endpoint as [axios] reports it *)
  axios_post : HttpRequest -> AxiosOutcome
}.

(** [error.message] *)
Definition exn_message (rt : Runtime) (e : exn) : string :=
  match e with
  | Error m | AxiosError m _ => m
  | TypeError what => type_error_message rt what
  end.

(** Number-to-string conversion: the digits of the integer up to 2^53,
    where every integer is a double of its own. *)
Definition number_to_string (rt : Runtime) (n : Z) : string :=
  if (Z.abs n <=? 9007199254740992)%Z then Z_to_string n
  else large_number_to_string rt n.

(** ToString, as a template literal or [+] with a string applies it.  An
    object is converted by its [toString]: the inherited one answers
    [[object Object]], while an own property of that name, which in a JSON
    tree is no function, leaves no conversion and a TypeError is thrown.  An
    array is joined from the conversions of its items. *)
Fixpoint to_string (rt : Runtime) (v : value) : res string :=
  match v with
  | JUndefined => Ok "undefined"
  | JNull => Ok "null"
  | JBool true => Ok "true"
  | JBool false => Ok "false"
  | JNum n => Ok (number_to_string rt n)
  | JStr s => Ok s
  | JArr xs =>
      (fix join (l : list value) : res string :=
         match l with
         | [] => Ok ""
         | x :: rest =>
             sx <- match x with
                   | JUndefined | JNull => Ok ""
                   | _ => to_string rt x
                   end;;
             match rest with
             | [] => Ok sx
             | _ :: _ => tail <- join rest;; Ok (sx ++ "," ++ tail)
             end
         end) xs
  | JObj o =>
      match obj_get o "toString" with
      | Some _ => Throw (TypeError CannotConvert)
      | None => Ok "[object Object]"
      end
  end.

(** ToPrimitive, as [>] and [/] apply it before ToNumber. *)
Definition to_primitive (rt : Runtime) (v : value) : res value :=
  match v with
  | JArr _ | JObj _ => s <- to_string rt v;; Ok (JStr s)
  | _ => Ok v
  end.

(** [v > 0] *)
Definition js_gt0 (rt : Runtime) (v : value) : res bool :=
  p <- to_primitive rt v;;
  Ok match p with
     | JBool b => b
     | JNum n => (0 <? n)%Z
     | JStr s => string_gt0 rt s
     | _ => false
     end.

(** [v && v.length > 0] *)
Definition nonempty (rt : Runtime) (v : value) : res bool :=
  if truthy v then n <- get v "length";; js_gt0 rt n else Ok false.

(** [JSON.stringify(v, null, 2)] as a value, and inside a template literal. *)
Definition json_text (rt : Runtime) (v : value) : value :=
  match JSON_stringify rt v with
  | Some s => JStr s
  | None => JUndefined
  end.

Definition json_template (rt : Runtime) (v : value) : string :=
  match JSON_stringify rt v with
  | Some s => s
  | None => "undefined"
  end.

(** [(v / 1024 / 1024).toFixed(2)] *)
Definition megabytes (rt : Runtime) (v : value) : res string :=
  p <- to_primitive rt v;;
  Ok (megabytes_fixed2 rt p).

(** Computations that may call the remote endpoint: the outbound requests
    made so far are threaded through. *)
Definition M (A : Type) : Type := list HttpRequest -> res A * list HttpRequest.

Definition ret {A} (a : A) : M A := fun log => (Ok a, log).
Definition throw {A} (e : exn) : M A := fun log => (Throw e, log).
Definition lift {A} (r : res A) : M A := fun log => (r, log).

Definition bind {A B} (m : M A) (k : A -> M B) : M B :=
  fun log =>
    match m log with
    | (Ok a, log') => k a log'
    | (Throw e, log') => (Throw e, log')
    end.

(** [try { m } catch (error) { h error }] *)
Definition try_catch {A} (m : M A) (h : exn -> M A) : M A :=
  fun log =>
    match m log with
    | (Ok a, log') => (Ok a, log')
    | (Throw e, log') => h e log'
    end.

(** [await axiosInstance.post(...)] *)
Definition post (rt : Runtime) (req : HttpRequest) : M HttpResponse :=
  fun log =>
    match axios_post rt req with
    | Fulfilled r => (Ok r, (log ++ [req])%list)
    | Rejected msg r => (Throw (AxiosError msg r), (log ++ [req])%list)
    end.

Notation "x <~ m ;; k" := (bind m (fun x => k))
  (at level 100, m at next level, right associativity).

(** What a tool handler returns: [{content: [{type: 'text', text}], isError}];
    an absent [isError] is [false]. *)
Record ToolResult := {
  text : value;
  isError : bool
}.

Definition text_result (t : value) : ToolResult := {| text := t; isError := false |}.
Definition error_result (t : string) : ToolResult := {| text := JStr t; isError := true |}.

(** ** The single-user server ([src/index.ts]) *)

Module Stdio.

(** [config.apiKey]: [process.env.JSONCUT_API_KEY || null] *)
Record ServerConfig := {
  apiKey : option string;
  apiUrl : string
}.

Definition load_config (JSONCUT_API_KEY : option string) : ServerConfig :=
  {| apiKey := match JSONCUT_API_KEY with
               | Some k => if String.eqb k "" then None else Some k
               | None => None
               end;
     apiUrl := "https://api.jsoncut.com" |}.

Definition config_apiKey (cfg : ServerConfig) : value :=
  match apiKey cfg with
  | Some k => JStr k
  | None => JNull
  end.

Definition api_key_required : string :=
  "API key is required. Set JSONCUT_API_KEY environment variable or provide apiKey parameter.".

Definition getApiKey (cfg : ServerConfig) (providedKey : value) : res value :=
  let apiKey := js_or providedKey (config_apiKey cfg) in
  if negb (truthy apiKey) then Throw (Error api_key_required) else Ok apiKey.

(** The [config] object that [handleCreateImageConfig] builds. *)
Definition image_config (args : value) : res obj :=
  width <- get args "width";;
  height <- get args "height";;
  layers <- get args "layers";;
  let config :=
    [("width", js_or width (JNum 1920));
     ("height", js_or height (JNum 1080));
     ("layers", js_or layers (JArr []))] in
  backgroundColor <- get args "backgroundColor";;
  let config := assign_when (defined backgroundColor) "backgroundColor" backgroundColor config in
  format <- get args "format";;
  let config := assign_when (defined format) "format" format config in
  quality <- get args "quality";;
  let config := assign_when (defined quality) "quality" quality config in
  defaults <- get args "defaults";;
  let config := assign_when (defined defaults) "defaults" defaults config in
  Ok config.

Definition handleCreateImageConfig (rt : Runtime) (args : value) : res ToolResult :=
  config <- image_config args;;
  Ok (text_result
        (json_text rt (JObj [("type", JStr "image"); ("config", JObj config)]))).

(** The [config] object that [handleCreateVideoConfig] builds. *)
Definition video_config (rt : Runtime) (args : value) : res obj :=
  width <- get args "width";;
  height <- get args "height";;
  fps <- get args "fps";;
  format <- get args "format";;
  clips <- get args "clips";;
  let config :=
    [("width", js_or width (JNum 1280));
     ("height", js_or height (JNum 720));
     ("fps", js_or fps (JNum 25));
     ("format", js_or format (JStr "mp4"));
     ("clips", js_or clips (JArr []))] in
  fast <- get args "fast";;
  let config := assign_when (defined fast) "fast" fast config in
  audioFilePath <- get args "audioFilePath";;
  let config := assign_when (truthy audioFilePath) "audioFilePath" audioFilePath config in
  loopAudio <- get args "loopAudio";;
  let config := assign_when (defined loopAudio) "loopAudio" loopAudio config in
  outputVolume <- get args "outputVolume";;
  let config := assign_when (defined outputVolume) "outputVolume" outputVolume config in
  keepSourceAudio <- get args "keepSourceAudio";;
  let config := assign_when (defined keepSourceAudio) "keepSourceAudio" keepSourceAudio config in
  clipsAudioVolume <- get args "clipsAudioVolume";;
  let config := assign_when (defined clipsAudioVolume) "clipsAudioVolume" clipsAudioVolume config in
  audioTracks <- get args "audioTracks";;
  has_tracks <- nonempty rt audioTracks;;
  let config := assign_when has_tracks "audioTracks" audioTracks config in
  audioNorm <- get args "audioNorm";;
  let config := assign_when (truthy audioNorm) "audioNorm" audioNorm config in
  defaults <- get args "defaults";;
  let config := assign_when (truthy defaults) "defaults" defaults config in
  Ok config.

Definition handleCreateVideoConfig (rt : Runtime) (args : value) : res ToolResult :=
  config <- video_config rt args;;
  Ok (text_result
        (json_text rt (JObj [("type", JStr "video"); ("config", JObj config)]))).

(** Lines 622-642 of [handleValidateConfig], and the request it then sends. *)
Definition validate_request (rt : Runtime) (cfg : ServerConfig) (args : value)
  : res HttpRequest :=
  _ <- destructurable args "type";;
  type <- get args "type";;
  config <- get args "config";;
  apiKey <- get args "apiKey";;
  if negb (truthy type) then Throw (Error "Missing required parameter: type") else
  if negb (truthy config) then Throw (Error "Missing required parameter: config") else
  parsedConfig <- match config with
                  | JStr s =>
                      match JSON_parse rt s with
                      | Some v => Ok v
                      | None => Throw (Error "Invalid config JSON string")
                      end
                  | _ => Ok config
                  end;;
  key <- getApiKey cfg apiKey;;
  Ok {| url := "/api/v1/jobs/validate";
        body := JObj [("type", type); ("config", parsedConfig)];
        api_key_header := key |}.

(** [xs.forEach((x, idx) => { message += f x idx })] *)
Fixpoint forEach_from (idx : nat) (xs : list value)
    (f : value -> nat -> res string) (message : string) : res string :=
  match xs with
  | [] => Ok message
  | x :: rest =>
      piece <- f x idx;;
      forEach_from (S idx) rest f (message ++ piece)
  end.

Definition forEach (receiver : string) (v : value)
    (f : value -> nat -> res string) (message : string) : res string :=
  match v with
  | JArr xs => forEach_from 0 xs f message
  | _ => Throw (TypeError (NotAFunction (receiver ++ ".forEach")))
  end.

Definition error_line (rt : Runtime) (err : value) (idx : nat) : res string :=
  m <- get err "message";;
  m <- to_string rt m;;
  field <- get err "field";;
  field_note <- (if truthy field
                 then f <- to_string rt field;; Ok (" (field: " ++ f ++ ")")
                 else Ok "");;
  Ok ("  " ++ number_to_string rt (Z.of_nat idx + 1) ++ ". " ++ m ++ field_note ++ nl).

Definition resource_line (rt : Runtime) (r : value) (idx : nat) : res string :=
  type <- get r "type";;
  type <- to_string rt type;;
  u <- get r "url";;
  u <- to_string rt u;;
  size <- get r "size";;
  size_note <- (if truthy size
                then mb <- megabytes rt size;; Ok (" (" ++ mb ++ " MB)")
                else Ok "");;
  Ok ("  - " ++ type ++ ": " ++ u ++ size_note ++ nl).

(** Lines 668-677: the numbered list of errors. *)
Definition errors_section (rt : Runtime) (validation : value) (message : string)
  : res string :=
  errors <- get validation "errors";;
  has_errors <- nonempty rt errors;;
  if has_errors
  then forEach "validation.errors" errors (error_line rt)
         (message ++ nl ++ "Errors:" ++ nl)
  else Ok message.

(** Lines 679-688: the list of detected resources. *)
Definition resources_section (rt : Runtime) (validation : value) (message : string)
  : res string :=
  detectedResources <- get validation "detectedResources";;
  has_resources <- nonempty rt detectedResources;;
  if has_resources
  then forEach "validation.detectedResources" detectedResources (resource_line rt)
         (message ++ nl ++ "Detected Resources:" ++ nl)
  else Ok message.

(** Lines 657-709: the response body mapped to the caller-facing result. *)
Definition validation_report (rt : Runtime) (result : value) : res ToolResult :=
  success <- get result "success";;
  validation <- (if truthy success then get result "data" else Ok success);;
  if truthy validation then
    isValid <- get validation "isValid";;
    let message := "Validation Result:" ++ nl in
    let message := message ++ "- Valid: "
                   ++ (if truthy isValid then "✅ Yes" else "❌ No") ++ nl in
    estimatedTokens <- get validation "estimatedTokens";;
    message <- (if defined estimatedTokens
                then tokens <- to_string rt estimatedTokens;;
                     Ok (message ++ "- Estimated Tokens: " ++ tokens ++ nl)
                else Ok message);;
    message <- errors_section rt validation message;;
    message <- resources_section rt validation message;;
    Ok (text_result (JStr message))
  else
    e <- get result "error";;
    let errorMessage := js_or e (JStr "Validation failed") in
    errorMessage <- to_string rt errorMessage;;
    Ok (error_result ("Validation Error: " ++ errorMessage)).

(** What the [catch] block prints for an error that has no [response]:
    [error.message], or the initial ['Unknown error occurred'] if that is
    empty. *)
Definition thrown_text (rt : Runtime) (error : exn) : string :=
  if String.eqb (exn_message rt error) "" then "Unknown error occurred"
  else exn_message rt error.

(** [errorData.error || errorData.message || `API Error: ...`] *)
Definition response_cause (rt : Runtime) (response : HttpResponse) : res value :=
  let errorData := data response in
  e <- get errorData "error";;
  if truthy e then Ok e else
    m <- get errorData "message";;
    Ok (js_or m (JStr ("API Error: " ++ number_to_string rt (status response)
                       ++ " " ++ statusText response))).

(** Lines 710-733: the [catch] block of [handleValidateConfig]. *)
Definition validate_catch (rt : Runtime) (error : exn) : res ToolResult :=
  errorMessage <-
    match exn_response error with
    | Some response =>
        errorMessage <- response_cause rt response;;
        details <- get (data response) "details";;
        if truthy details
        then m <- to_string rt errorMessage;;
             Ok (JStr (m ++ nl ++ "Details: " ++ json_template rt details))
        else Ok errorMessage
    | None => Ok (JStr (thrown_text rt error))
    end;;
  errorMessage <- to_string rt errorMessage;;
  Ok (error_result ("Validation Error: " ++ errorMessage)).

Definition handleValidateConfig (rt : Runtime) (cfg : ServerConfig) (args : value)
  : M ToolResult :=
  try_catch
    (req <~ lift (validate_request rt cfg args);;
     response <~ post rt req;;
     lift (validation_report rt (data response)))
    (fun error => lift (validate_catch rt error)).

(** The two schema documents read at start-up. *)
Record Schemas := {
  imageSchema : value;
  videoSchema : value
}.

Definition handleGetImageSchema (rt : Runtime) (sch : Schemas) : ToolResult :=
  text_result (json_text rt (imageSchema sch)).

Definition handleGetVideoSchema (rt : Runtime) (sch : Schemas) : ToolResult :=
  text_result (json_text rt (videoSchema sch)).

Definition tool_names : list string :=
  ["create_image_config"; "create_video_config"; "validate_config";
   "get_image_schema"; "get_video_schema"].

(** The [switch] over the tool name. *)
Definition dispatch (rt : Runtime) (cfg : ServerConfig) (sch : Schemas)
    (name : string) (args : value) : M ToolResult :=
  if String.eqb name "create_image_config" then lift (handleCreateImageConfig rt args)
  else if String.eqb name "create_video_config" then lift (handleCreateVideoConfig rt args)
  else if String.eqb name "validate_config" then handleValidateConfig rt cfg args
  else if String.eqb name "get_image_schema" then ret (handleGetImageSchema rt sch)
  else if String.eqb name "get_video_schema" then ret (handleGetVideoSchema rt sch)
  else throw (Error ("Unknown tool: " ++ name)).

(** The [CallToolRequestSchema] handler: the [switch] inside [try], and the
    [catch] that answers with the error's message. *)
Definition callTool (rt : Runtime) (cfg : ServerConfig) (sch : Schemas)
    (name : string) (args : value) : M ToolResult :=
  try_catch (dispatch rt cfg sch name args)
    (fun error => ret (error_result ("Error: " ++ exn_message rt error))).

End Stdio.

(** ** The multi-user HTTP server ([unnamed/part_001]) *)

Module Http.

(** The state of a [JsoncutMCPServer] instance the handlers read: the
    credential its constructor stored. *)
Record JsoncutMCPServer := {
  apiKey : string
}.

Definition api_key_required : string :=
  "API key is required. Provide X-API-Key header when connecting.".

Definition getApiKey (this : JsoncutMCPServer) (providedKey : value) : res value :=
  let apiKey := js_or providedKey (JStr (apiKey this)) in
  if negb (truthy apiKey) then Throw (Error api_key_required) else Ok apiKey.

Definition handleCreateImageConfig (rt : Runtime) (args : value) : ToolResult :=
  text_result (json_text rt args).

Definition handleCreateVideoConfig (rt : Runtime) (args : value) : ToolResult :=
  text_result (json_text rt args).

(** [v?.k] *)
Definition opt_get (v : value) (k : string) : value :=
  match get v k with
  | Ok x => x
  | Throw _ => JUndefined
  end.

(** The [catch] block of [handleValidateConfig]. *)
Definition validate_catch (rt : Runtime) (error : exn) : res ToolResult :=
  let response_data :=
    match exn_response error with
    | Some response => data response
    | None => JUndefined
    end in
  let errorMessage :=
    js_or (opt_get response_data "message")
      (js_or (JStr (exn_message rt error)) (JStr "Validation failed")) in
  let errors := opt_get response_data "errors" in
  let errorDetails :=
    if truthy errors then json_template rt errors else "" in
  errorMessage <- to_string rt errorMessage;;
  Ok (error_result ("Validation Error: " ++ errorMessage ++ nl ++ errorDetails)).

Definition handleValidateConfig (rt : Runtime) (this : JsoncutMCPServer) (args : value)
  : M ToolResult :=
  try_catch
    (_ <~ lift (destructurable args "type");;
     type <~ lift (get args "type");;
     config <~ lift (get args "config");;
     apiKey <~ lift (get args "apiKey");;
     key <~ lift (getApiKey this apiKey);;
     response <~ post rt {| url := "/api/v1/jobs/validate";
                            body := JObj [("type", type); ("config", config)];
                            api_key_header := key |};;
     ret (text_result (json_text rt (data response))))
    (fun error => lift (validate_catch rt error)).

Definition handleGetImageSchema (rt : Runtime) (sch : Stdio.Schemas) : ToolResult :=
  text_result (json_text rt (Stdio.imageSchema sch)).

Definition handleGetVideoSchema (rt : Runtime) (sch : Stdio.Schemas) : ToolResult :=
  text_result (json_text rt (Stdio.videoSchema sch)).

(** The [switch] over the tool name. *)
Definition dispatch (rt : Runtime) (sch : Stdio.Schemas) (this : JsoncutMCPServer)
    (name : string) (args : value) : M ToolResult :=
  if String.eqb name "create_image_config" then ret (handleCreateImageConfig rt args)
  else if String.eqb name "create_video_config" then ret (handleCreateVideoConfig rt args)
  else if String.eqb name "validate_config" then handleValidateConfig rt this args
  else if String.eqb name "get_image_schema" then ret (handleGetImageSchema rt sch)
  else if String.eqb name "get_video_schema" then ret (handleGetVideoSchema rt sch)
  else throw (Error ("Unknown tool: " ++ name)).

(** The [CallToolRequestSchema] handler. *)
Definition callTool (rt : Runtime) (sch : Stdio.Schemas) (this : JsoncutMCPServer)
    (name : string) (args : value) : M ToolResult :=
  try_catch (dispatch rt sch this name args)
    (fun error => ret (error_result ("Error: " ++ exn_message rt error))).

(** *** The session multiplexer *)

(** What the routes read of an inbound request: the [mcp-session-id] and
    [x-api-key] headers and the parsed body. *)
Record Request := {
  mcp_session_id : option string;
  x_api_key : option string;
  req_body : value
}.

(** [sessions]: the servers by session identifier. *)
Abbreviation Sessions := (gmap string JsoncutMCPServer).

(** The answer of a route. *)
Inductive Reply : Type :=
| Forwarded (sid : string) (results : list ToolResult)
| JsonRpcError (http_status : Z) (code : Z) (message : string)
| TextError (http_status : Z) (message : string).

(** The one thing assumed of the SDK's transport: [tool_calls body] are the
    [tools/call] invocations, name and arguments, that a POST body delivers
    to the session's [CallToolRequestSchema] handler. *)
Record Sdk := {
  tool_calls : value -> list (string * value)
}.

Fixpoint run_calls (rt : Runtime) (sch : Stdio.Schemas) (server : JsoncutMCPServer)
    (calls : list (string * value)) : M (list ToolResult) :=
  match calls with
  | [] => ret []
  | (name, args) :: rest =>
      r <~ callTool rt sch server name args;;
      rs <~ run_calls rt sch server rest;;
      ret (r :: rs)
  end.

(** [session.transport.handleRequest(req, res, req.body)] *)
Definition transport_handleRequest (rt : Runtime) (sdk : Sdk) (sch : Stdio.Schemas)
    (server : JsoncutMCPServer) (body : value) : M (list ToolResult) :=
  run_calls rt sch server (tool_calls sdk body).

Definition header_truthy (h : option string) : bool :=
  match h with
  | Some s => negb (String.eqb s "")
  | None => false
  end.

(** [sessionId && sessions.has(sessionId)], with the session it finds. *)
Definition known_session (sessions : Sessions) (sessionId : option string)
  : option (string * JsoncutMCPServer) :=
  match sessionId with
  | Some sid =>
      if String.eqb sid "" then None
      else match sessions !! sid with
           | Some server => Some (sid, server)
           | None => None
           end
  | None => None
  end.

Definition isInitializeRequest (body : value) : bool :=
  truthy body &&
  match opt_get body "method" with
  | JStr m => String.eqb m "initialize"
  | _ => false
  end.

(** What a route leaves behind: its answer, the session map, and the
    outbound requests made so far. *)
Abbreviation Outcome := (Reply * Sessions * list HttpRequest)%type.

(** The answer of a session's transport, or the 500 of the route's [catch]
    block if handling the request threw. *)
Definition answered (sid : string) (sessions : Sessions)
    (handled : res (list ToolResult) * list HttpRequest) : Outcome :=
  match handled with
  | (Ok results, log) => (Forwarded sid results, sessions, log)
  | (Throw _, log) => (JsonRpcError 500 (-32603) "Internal server error", sessions, log)
  end.

(** [app.post('/mcp', ...)]; [newSessionId] is what [randomUUID()] returns
    if it is called. *)
Definition post_mcp (rt : Runtime) (sdk : Sdk) (sch : Stdio.Schemas)
    (newSessionId : string) (req : Request) (sessions : Sessions)
    (log : list HttpRequest) : Outcome :=
  match known_session sessions (mcp_session_id req) with
  | Some (sid, server) =>
      answered sid sessions
        (transport_handleRequest rt sdk sch server (req_body req) log)
  | None =>
      if negb (isInitializeRequest (req_body req)) then
        (JsonRpcError 400 (-32000)
           "Bad Request: No valid session ID provided or not an initialize request",
         sessions, log)
      else if negb (header_truthy (x_api_key req)) then
        (JsonRpcError 401 (-32000) "Missing X-API-Key header", sessions, log)
      else
        let mcpServer := {| apiKey := default "" (x_api_key req) |} in
        let sessions := <[newSessionId := mcpServer]> sessions in
        answered newSessionId sessions
          (transport_handleRequest rt sdk sch mcpServer (req_body req) log)
  end.

(** [app.get('/mcp', ...)] *)
Definition get_mcp (req : Request) (sessions : Sessions) : Reply * Sessions :=
  match known_session sessions (mcp_session_id req) with
  | None => (TextError 400 "Invalid or missing session ID", sessions)
  | Some (sid, _) => (Forwarded sid [], sessions)
  end.

(** [app.delete('/mcp', ...)] *)
Definition delete_mcp (req : Request) (sessions : Sessions) : Reply * Sessions :=
  match known_session sessions (mcp_session_id req) with
  | None => (TextError 400 "Invalid or missing session ID", sessions)
  | Some (sid, _) => (Forwarded sid [], delete sid sessions)
  end.

(** [transport.onclose] of the session created as [newSessionId] *)
Definition transport_onclose (newSessionId : string) (sessions : Sessions) : Sessions :=
  delete newSessionId sessions.

(** What happens to the process: a request on one of the routes, or the
    transport of a session closing. *)
Inductive Event : Type :=
| POST (newSessionId : string) (req : Request)
| GET (req : Request)
| DELETE (req : Request)
| Closed (sid : string).

Definition step (rt : Runtime) (sdk : Sdk) (sch : Stdio.Schemas) (ev : Event)
    (st : Sessions * list HttpRequest) : Sessions * list HttpRequest :=
  match ev with
  | POST newSessionId req =>
      let '(_, sessions, log) := post_mcp rt sdk sch newSessionId req st.1 st.2 in
      (sessions, log)
  | GET req => ((get_mcp req st.1).2, st.2)
  | DELETE req => ((delete_mcp req st.1).2, st.2)
  | Closed sid => (transport_onclose sid st.1, st.2)
  end.

Definition run (rt : Runtime) (sdk : Sdk) (sch : Stdio.Schemas) (events : list Event)
    (st : Sessions * list HttpRequest) : Sessions * list HttpRequest :=
  fold_left (fun st ev => step rt sdk sch ev st) events st.

(** The event neither ends session [sid] nor draws [sid] again as a new
    identifier. *)
Definition keeps (sid : string) (ev : Event) : Prop :=
  match ev with
  | POST newSessionId _ => newSessionId <> sid
  | GET _ => True
  | DELETE req => mcp_session_id req <> Some sid
  | Closed sid' => sid' <> sid
  end.

End Http.

(** ** Worked environment

    A runtime for the closed examples below.  Its [JSON.stringify] is the
    serializer with a two-space indent; numbers print as the engine prints
    them; [JSON.parse] is given on the texts the examples hand it: that of
    the empty object, and malformed ones; the remote endpoint is a
    parameter.  A body is a single JSON-RPC message. *)

Module Demo.

Definition chr (n : nat) : string := String (Ascii.ascii_of_nat n) "".

Definition quote_mark : string := chr 34.
Definition backslash : string := chr 92.

Definition hex_digit (n : nat) : string :=
  chr (if Nat.ltb n 10 then 48 + n else 87 + n).

(** QuoteJSONString, one code unit at a time. *)
Definition escape (c : ascii) : string :=
  let n := nat_of_ascii c in
  if Nat.eqb n 34 then backslash ++ quote_mark
  else if Nat.eqb n 92 then backslash ++ backslash
  else if Nat.eqb n 8 then backslash ++ "b"
  else if Nat.eqb n 9 then backslash ++ "t"
  else if Nat.eqb n 10 then backslash ++ "n"
  else if Nat.eqb n 12 then backslash ++ "f"
  else if Nat.eqb n 13 then backslash ++ "r"
  else if Nat.ltb n 32
       then backslash ++ "u00" ++ hex_digit (Nat.div n 16) ++ hex_digit (Nat.modulo n 16)
  else String c "".

Fixpoint escaped (s : string) : string :=
  match s with
  | EmptyString => ""
  | String c rest => escape c ++ escaped rest
  end.

Definition quote (s : string) : string := quote_mark ++ escaped s ++ quote_mark.

(** The double nearest to a positive integer: 53 significant bits, ties to
    the even one. *)
Definition nearest_double (m : Z) : Z :=
  let bits := (Z.log2 m + 1)%Z in
  if (bits <=? 53)%Z then m else
  let ulp := (2 ^ (bits - 53))%Z in
  let q := (m / ulp)%Z in
  let r := (m mod ulp)%Z in
  let half := (ulp / 2)%Z in
  let q := if (r <? half)%Z then q
           else if (half <? r)%Z then (q + 1)%Z
           else if Z.even q then q else (q + 1)%Z in
  (q * ulp)%Z.

Definition decimal_digits (m : Z) : nat := String.length (Z_to_string m).

(** The integer with the fewest significant digits that reads back as the
    double [x], the closest one if several have that few. *)
Fixpoint shortest_from (x : Z) (zeros : nat) : Z :=
  let scale := (10 ^ Z.of_nat zeros)%Z in
  let lo := (x / scale * scale)%Z in
  let hi := (lo + scale)%Z in
  let lo_ok := (0 <? lo)%Z && (nearest_double lo =? x)%Z in
  let hi_ok := (nearest_double hi =? x)%Z in
  let here :=
    if lo_ok && hi_ok
    then Some (if (x - lo <? hi - x)%Z then lo
               else if (hi - x <? x - lo)%Z then hi
               else if Z.even (lo / scale) then lo else hi)
    else if lo_ok then Some lo
    else if hi_ok then Some hi
    else None in
  match here, zeros with
  | Some c, _ => c
  | None, S fewer => shortest_from x fewer
  | None, O => x
  end.

Fixpoint strip_zeros (fuel : nat) (m : Z) : Z :=
  match fuel with
  | S fuel => if ((m mod 10 =? 0) && negb (m =? 0))%Z then strip_zeros fuel (m / 10)%Z else m
  | O => m
  end.

(** Number-to-string of a positive integer-valued double. *)
Definition positive_to_string (x : Z) : string :=
  let x := nearest_double x in
  let c := shortest_from x (decimal_digits x) in
  let n := decimal_digits c in
  if Nat.leb n 21 then Z_to_string c
  else
    match Z_to_string (strip_zeros n c) with
    | String d EmptyString => String d "" ++ "e+" ++ Z_to_string (Z.of_nat n - 1)
    | String d rest => String d "" ++ "." ++ rest ++ "e+" ++ Z_to_string (Z.of_nat n - 1)
    | EmptyString => ""
    end.

Definition large_number (n : Z) : string :=
  if (n <? 0)%Z then "-" ++ positive_to_string (- n) else positive_to_string n.

Definition number (n : Z) : string :=
  if (Z.abs n <=? 9007199254740992)%Z then Z_to_string n else large_number n.

Fixpoint join_lines (lines : list string) : string :=
  match lines with
  | [] => ""
  | [l] => l
  | l :: rest => l ++ "," ++ nl ++ join_lines rest
  end.

(** SerializeJSONProperty with the gap of two spaces: [undefined] has no
    text, is left out of an object and stands as [null] in an array. *)
Fixpoint stringify (indent : string) (v : value) {struct v} : option string :=
  let inner := indent ++ "  " in
  match v with
  | JUndefined => None
  | JNull => Some "null"
  | JBool true => Some "true"
  | JBool false => Some "false"
  | JNum n => Some (number n)
  | JStr s => Some (quote s)
  | JArr xs =>
      let items :=
        (fix go (l : list value) : list string :=
           match l with
           | [] => []
           | x :: rest => (inner ++ default "null" (stringify inner x)) :: go rest
           end) xs in
      Some match items with
           | [] => "[]"
           | _ :: _ => "[" ++ nl ++ join_lines items ++ nl ++ indent ++ "]"
           end
  | JObj o =>
      let members :=
        (fix go (l : obj) : list string :=
           match l with
           | [] => []
           | (k, x) :: rest =>
               match stringify inner x with
               | Some t => (inner ++ quote k ++ ": " ++ t) :: go rest
               | None => go rest
               end
           end) o in
      Some match members with
           | [] => "{}"
           | _ :: _ => "{" ++ nl ++ join_lines members ++ nl ++ indent ++ "}"
           end
  end.

Fixpoint all_digits (s : string) : bool :=
  match s with
  | EmptyString => true
  | String c rest =>
      Nat.leb 48 (nat_of_ascii c) && Nat.leb (nat_of_ascii c) 57 && all_digits rest
  end.

Fixpoint some_nonzero (s : string) : bool :=
  match s with
  | EmptyString => false
  | String c rest => negb (Nat.eqb (nat_of_ascii c) 48) || some_nonzero rest
  end.

(** [s > 0]: exact for a string of decimal digits and for a string that is
    no numeric literal. *)
Definition positive_string (s : string) : bool := all_digits s && some_nonzero s.

Definition two_digits (n : Z) : string :=
  (if (n <? 10)%Z then "0" else "") ++ Z_to_string n.

(** [(n / 1024 / 1024).toFixed(2)] for a number: the hundredths nearest to
    n / 2^20, the larger of two equally near. *)
Definition megabytes_of (n : Z) : string :=
  let hundredths := ((200 * Z.abs n + 1048576) / 2097152)%Z in
  (if ((n <? 0) && negb (hundredths =? 0))%Z then "-" else "")
  ++ Z_to_string (hundredths / 100) ++ "." ++ two_digits (hundredths mod 100).

Definition megabytes_text (v : value) : string :=
  match v with
  | JNum n => megabytes_of n
  | JNull | JBool false => "0.00"
  | JBool true => megabytes_of 1
  | JStr s =>
      if String.eqb s "" then "0.00"
      else if all_digits s
           then match NilZero.int_of_string s with
                | Some d => megabytes_of (Z.of_int d)
                | None => "NaN"
                end
           else "NaN"
  | _ => "NaN"
  end.

Definition nullish_name (v : value) : string :=
  match v with
  | JNull => "null"
  | _ => "undefined"
  end.

Definition type_error_text (what : type_error) : string :=
  match what with
  | CannotRead v k =>
      "Cannot read properties of " ++ nullish_name v ++ " (reading '" ++ k ++ "')"
  | CannotDestructure v k =>
      "Cannot destructure property '" ++ k ++ "' of 'args' as it is "
      ++ nullish_name v ++ "."
  | NotAFunction callee => callee ++ " is not a function"
  | CannotConvert => "Cannot convert object to primitive value"
  end.

(** A JSON text written line by line, with ['] standing for the quotation
    mark. *)
Fixpoint quoted (s : string) : string :=
  match s with
  | EmptyString => ""
  | String c rest =>
      (if Nat.eqb (nat_of_ascii c) 39 then quote_mark else String c "") ++ quoted rest
  end.

Fixpoint lines (ls : list string) : string :=
  match ls with
  | [] => ""
  | [l] => quoted l
  | l :: rest => quoted l ++ nl ++ lines rest
  end.

(** The runtime whose remote endpoint is [remote]. *)
Definition runtime (remote : HttpRequest -> AxiosOutcome) : Runtime := {|
  JSON_parse := fun s => if String.eqb s "{}" then Some (JObj []) else None;
  JSON_stringify := stringify "";
  large_number_to_string := large_number;
  string_gt0 := positive_string;
  megabytes_fixed2 := megabytes_text;
  type_error_message := type_error_text;
  axios_post := remote
|}.

End Demo.

(** The remote endpoint refuses every connection. *)
Definition demo_runtime : Runtime :=
  Demo.runtime (fun _ => Rejected "connect ECONNREFUSED" None).

Definition demo_schemas : Stdio.Schemas :=
  {| Stdio.imageSchema := JObj []; Stdio.videoSchema := JObj [] |}.

Definition demo_sdk : Http.Sdk := {|
  Http.tool_calls := fun body =>
    match Http.opt_get body "method" with
    | JStr m =>
        if String.eqb m "tools/call" then
          match Http.opt_get (Http.opt_get body "params") "name" with
          | JStr name =>
              [(name, Http.opt_get (Http.opt_get body "params") "arguments")]
          | _ => []
          end
        else []
    | _ => []
    end
|}.

(** A [tools/call] message. *)
Definition tools_call (name : string) (args : value) : value :=
  JObj [("jsonrpc", JStr "2.0"); ("id", JNum 1); ("method", JStr "tools/call");
        ("params", JObj [("name", JStr name); ("arguments", args)])].

Definition initialize_message : value :=
  JObj [("jsonrpc", JStr "2.0"); ("id", JNum 0); ("method", JStr "initialize");
        ("params", JObj [])].

(** The field names each stdio builder copies into its [config]. *)
Definition image_fields : list string :=
  ["width"; "height"; "layers"; "backgroundColor"; "format"; "quality"; "defaults"].

Definition video_fields : list string :=
  ["width"; "height"; "fps"; "format"; "clips"; "fast"; "audioFilePath";
   "loopAudio"; "outputVolume"; "keepSourceAudio"; "clipsAudioVolume";
   "audioTracks"; "audioNorm"; "defaults"].

(** *** The remote endpoint's successful answer

    The validation payload of a success-flagged answer, with its optional
    parts, and the JSON body that carries it. *)

Record ErrorEntry := {
  e_message : string;
  e_field : option string
}.

Record DetectedResource := {
  r_type : string;
  r_url : string;
  r_size : option Z
}.

Record Validation := {
  isValid : bool;
  estimatedTokens : option Z;
  errors : option (list ErrorEntry);
  detectedResources : option (list DetectedResource)
}.

(** An optional property: present with its value, or left out. *)
Definition optional {A} (k : string) (enc : A -> value) (o : option A) : obj :=
  match o with
  | Some a => [(k, enc a)]
  | None => []
  end.

Definition encode_error (e : ErrorEntry) : value :=
  JObj (("message", JStr (e_message e)) :: optional "field" JStr (e_field e)).

Definition encode_resource (r : DetectedResource) : value :=
  JObj (("type", JStr (r_type r)) :: ("url", JStr (r_url r))
        :: optional "size" JNum (r_size r)).

Definition encode_validation (p : Validation) : value :=
  JObj (("isValid", JBool (isValid p))
        :: optional "estimatedTokens" JNum (estimatedTokens p)
        ++ optional "errors" (fun es => JArr (map encode_error es)) (errors p)
        ++ optional "detectedResources" (fun rs => JArr (map encode_resource rs))
             (detectedResources p))%list.

Definition success_body (p : Validation) : value :=
  JObj [("success", JBool true); ("data", encode_validation p)].

(** *** The report, read off a typed payload

    The text [validation_report] is to produce for a validation payload,
    written over the typed record: the heading, the verdict, the estimated
    tokens if given, the numbered errors if there are any, the detected
    resources if there are any. *)

Definition error_text (rt : Runtime) (idx : nat) (e : ErrorEntry) : string :=
  "  " ++ number_to_string rt (Z.of_nat idx + 1) ++ ". " ++ e_message e
  ++ match e_field e with
     | Some f => if String.eqb f "" then "" else " (field: " ++ f ++ ")"
     | None => ""
     end
  ++ nl.

Fixpoint errors_text (rt : Runtime) (idx : nat) (es : list ErrorEntry) : string :=
  match es with
  | [] => ""
  | e :: rest => error_text rt idx e ++ errors_text rt (S idx) rest
  end.

Definition resource_text (rt : Runtime) (r : DetectedResource) : string :=
  "  - " ++ r_type r ++ ": " ++ r_url r
  ++ match r_size r with
     | Some n => if (n =? 0)%Z then "" else " (" ++ megabytes_fixed2 rt (JNum n) ++ " MB)"
     | None => ""
     end
  ++ nl.

Fixpoint resources_text (rt : Runtime) (rs : list DetectedResource) : string :=
  match rs with
  | [] => ""
  | r :: rest => resource_text rt r ++ resources_text rt rest
  end.

Definition report_text (rt : Runtime) (p : Validation) : string :=
  "Validation Result:" ++ nl
  ++ "- Valid: " ++ (if isValid p then "✅ Yes" else "❌ No") ++ nl
  ++ match estimatedTokens p with
     | Some n => "- Estimated Tokens: " ++ number_to_string rt n ++ nl
     | None => ""
     end
  ++ match errors p with
     | Some (e :: es) => nl ++ "Errors:" ++ nl ++ errors_text rt 0 (e :: es)
     | _ => ""
     end
  ++ match detectedResources p with
     | Some (r :: rs) => nl ++ "Detected Resources:" ++ nl ++ resources_text rt (r :: rs)
     | _ => ""
     end.


(** The request [validate_config] sends for a type, a configuration and a
    credential. *)
Definition validation_request (type config key : value) : HttpRequest :=
  {| url := "/api/v1/jobs/validate";
     body := JObj [("type", type); ("config", config)];
     api_key_header := key |}.


(** A runtime whose remote endpoint answers 500 with the body [null]. *)
Definition broken_remote_runtime : Runtime :=
  Demo.runtime (fun _ =>
    Rejected "Request failed with status code 500"
      (Some {| status := 500; statusText := "Internal Server Error"; data := JNull |})).

(** ** The advertised surface: resources and tool descriptors

    The [ListResources] and [ReadResource] handlers are the same in both
    servers (a [switch] in [src/index.ts], two [if]s in [unnamed/part_001]).
    Of a tool's descriptor the name and, of its [inputSchema], the property
    names and the [required] list are kept; the prose descriptions are not. *)

Module Registry.

Record ResourceDescriptor := {
  res_uri : string;
  res_name : string;
  res_description : string;
  res_mimeType : string
}.

(** The [ListResourcesRequestSchema] handler. *)
Definition listResources : list ResourceDescriptor :=
  [ {| res_uri := "schema://image";
       res_name := "Image Generation Schema";
       res_description := "Complete JSON schema for image generation configurations";
       res_mimeType := "application/json" |};
    {| res_uri := "schema://video";
       res_name := "Video Generation Schema";
       res_description := "Complete JSON schema for video generation configurations";
       res_mimeType := "application/json" |} ].

Record ResourceContents := {
  content_uri : string;
  content_mimeType : string;
  content_text : value
}.

(** The [ReadResourceRequestSchema] handler; it is not wrapped in a [try]. *)
Definition readResource (rt : Runtime) (sch : Stdio.Schemas) (uri : string)
  : res (list ResourceContents) :=
  if String.eqb uri "schema://image" then
    Ok [ {| content_uri := uri; content_mimeType := "application/json";
            content_text := json_text rt (Stdio.imageSchema sch) |} ]
  else if String.eqb uri "schema://video" then
    Ok [ {| content_uri := uri; content_mimeType := "application/json";
            content_text := json_text rt (Stdio.videoSchema sch) |} ]
  else Throw (Error ("Unknown resource: " ++ uri)).

Record ToolDescriptor := {
  tool_name : string;
  tool_properties : list string;
  tool_required : list string
}.

(** The [ListToolsRequestSchema] handler of [src/index.ts]. *)
Definition stdio_listTools : list ToolDescriptor :=
  [ {| tool_name := "create_image_config";
       tool_properties := ["width"; "height"; "backgroundColor"; "format"; "quality";
                           "defaults"; "layers"];
       tool_required := ["layers"] |};
    {| tool_name := "create_video_config";
       tool_properties := ["width"; "height"; "fps"; "format"; "fast"; "audioFilePath";
                           "loopAudio"; "outputVolume"; "keepSourceAudio";
                           "clipsAudioVolume"; "audioTracks"; "audioNorm"; "defaults";
                           "clips"];
       tool_required := ["clips"] |};
    {| tool_name := "validate_config";
       tool_properties := ["type"; "config"; "apiKey"];
       tool_required := ["type"; "config"] |};
    {| tool_name := "get_image_schema"; tool_properties := []; tool_required := [] |};
    {| tool_name := "get_video_schema"; tool_properties := []; tool_required := [] |} ].

(** The [ListToolsRequestSchema] handler of [unnamed/part_001]. *)
Definition http_listTools : list ToolDescriptor :=
  [ {| tool_name := "create_image_config";
       tool_properties := ["width"; "height"; "background"; "format"; "layers"];
       tool_required := ["width"; "height"; "layers"] |};
    {| tool_name := "create_video_config";
       tool_properties := ["width"; "height"; "fps"; "clips"];
       tool_required := ["width"; "height"; "clips"] |};
    {| tool_name := "validate_config";
       tool_properties := ["type"; "config"; "apiKey"];
       tool_required := ["type"; "config"] |};
    {| tool_name := "get_image_schema"; tool_properties := []; tool_required := [] |};
    {| tool_name := "get_video_schema"; tool_properties := []; tool_required := [] |} ].

(** The descriptor a server advertises under a name, if any. *)
Definition descriptor (tools : list ToolDescriptor) (name : string)
  : option ToolDescriptor :=
  find (fun t => String.eqb (tool_name t) name) tools.

End Registry.

(** The event is no POST that bears both an initialize body and a
    credential. *)
Definition uncredentialed (ev : Http.Event) : Prop :=
  match ev with
  | Http.POST _ req =>
      Http.isInitializeRequest (Http.req_body req)
      && Http.header_truthy (Http.x_api_key req) = false
  | _ => True
  end.

(** A runtime whose remote endpoint accepts every configuration. *)
Definition accepting_runtime : Runtime :=
  Demo.runtime (fun _ =>
    Fulfilled {| status := 200; statusText := "OK";
                 data := success_body {| isValid := true; estimatedTokens := Some 3%Z;
                                         errors := None; detectedResources := None |} |}).

(** A runtime whose remote endpoint refuses every configuration with 422
    and a structured error body. *)
Definition refusing_runtime : Runtime :=
  Demo.runtime (fun _ =>
    Rejected "Request failed with status code 422"
      (Some {| status := 422; statusText := "Unprocessable Entity";
               data := JObj [("error", JStr "Invalid layer type");
                             ("message", JStr "Validation failed on the server")] |})).

(** What a stdio build operation hands back for the configuration it has
    built: the text of [{type, config}]. *)
Definition built (rt : Runtime) (shape : string) (config : obj) : ToolResult :=
  text_result (json_text rt (JObj [("type", JStr shape); ("config", JObj config)])).

(** A computation is internal when whatever it throws has no [response]:
    the [catch] block of [handleValidateConfig] then reports the message. *)
Definition internal {A} (r : res A) : Prop :=
  forall e, r = Throw e -> exn_response e = None.

(** ** Properties of objects *)

Lemma obj_get_assign_eq k v o : obj_get (assign k v o) k = Some v.
Proof.
  induction o as [|[k' v'] rest IH]; simpl.
  - by rewrite String.eqb_refl.
  - destruct (String.eqb k' k) eqn:E; simpl.
    + by rewrite String.eqb_refl.
    + by rewrite E.
Qed.

Lemma obj_get_assign_ne k k' v o :
  k <> k' -> obj_get (assign k v o) k' = obj_get o k'.
Proof.
  intros Hne. induction o as [|[k0 v0] rest IH]; simpl.
  - destruct (String.eqb k k') eqn:E; [|done].
    apply String.eqb_eq in E. contradiction.
  - destruct (String.eqb k0 k) eqn:E; simpl.
    + apply String.eqb_eq in E. subst k0.
      destruct (String.eqb k k') eqn:E'; [|done].
      apply String.eqb_eq in E'. contradiction.
    + by rewrite IH.
Qed.

Lemma field_assign_when_ne c k k' v o :
  k <> k' -> field (assign_when c k v o) k' = field o k'.
Proof.
  intros Hne. unfold field, assign_when.
  destruct c; [|done]. by rewrite obj_get_assign_ne.
Qed.

Lemma field_assign_when_defined k v o :
  field o k = JUndefined -> field (assign_when (defined v) k v o) k = v.
Proof.
  intros Hk. unfold assign_when.
  destruct (defined v) eqn:D.
  - unfold field. by rewrite obj_get_assign_eq.
  - rewrite Hk. by destruct v.
Qed.

Lemma keys_assign (P : string -> Prop) k v o :
  P k -> Forall P (keys o) -> Forall P (keys (assign k v o)).
Proof.
  intros Hk. induction o as [|[k' v'] rest IH]; simpl; intros Ho.
  - by constructor.
  - inversion Ho as [|? ? Hk' Hrest]; subst.
    destruct (String.eqb k' k); simpl; constructor; auto.
Qed.

Lemma keys_assign_when (P : string -> Prop) c k v o :
  P k -> Forall P (keys o) -> Forall P (keys (assign_when c k v o)).
Proof.
  intros Hk Ho. destruct c; simpl; [by apply keys_assign | done].
Qed.

Ltac skip_assigns := rewrite ?field_assign_when_ne by discriminate.

Lemma obj_get_not_key k o : k ∉ keys o -> obj_get o k = None.
Proof.
  induction o as [|[k' v'] rest IH]; simpl; [done|].
  intros Hnin. destruct (String.eqb k' k) eqn:E.
  - apply String.eqb_eq in E. subst. exfalso. apply Hnin. by left.
  - apply IH. intros Hin. apply Hnin. by right.
Qed.

(** ** The stdio configuration builders *)

(** Every property of the bundle is read without a throw when the bundle is
    an object, so the image builder returns; the video builder returns
    unless comparing [audioTracks.length] with [0] throws. *)
Lemma image_config_returns fields :
  exists cfg, Stdio.image_config (JObj fields) = Ok cfg.
Proof. unfold Stdio.image_config. cbn [get res_bind]. eauto. Qed.

Lemma video_config_outcome rt fields :
  match nonempty rt (field fields "audioTracks") with
  | Ok _ => exists cfg, Stdio.video_config rt (JObj fields) = Ok cfg
  | Throw e => Stdio.video_config rt (JObj fields) = Throw e
  end.
Proof.
  unfold Stdio.video_config. cbn [get res_bind].
  destruct (nonempty rt (field fields "audioTracks")); cbn [res_bind]; eauto.
Qed.

(** Under [video_config rt (JObj fields) = Ok cfg -> _]: the comparison of
    [audioTracks.length] returned. *)
Ltac tracks_compared rt fields :=
  unfold Stdio.video_config; cbn [get res_bind];
  destruct (nonempty rt (field fields "audioTracks")) as [has|];
  cbn [res_bind]; [|by intros [=]].

Lemma image_config_dimensions fields cfg :
  Stdio.image_config (JObj fields) = Ok cfg ->
  field cfg "width" = js_or (field fields "width") (JNum 1920) /\
  field cfg "height" = js_or (field fields "height") (JNum 1080) /\
  field cfg "layers" = js_or (field fields "layers") (JArr []).
Proof.
  unfold Stdio.image_config. cbn [get res_bind].
  intros [= <-]. repeat split; skip_assigns; reflexivity.
Qed.

Lemma video_config_dimensions rt fields cfg :
  Stdio.video_config rt (JObj fields) = Ok cfg ->
  field cfg "width" = js_or (field fields "width") (JNum 1280) /\
  field cfg "height" = js_or (field fields "height") (JNum 720) /\
  field cfg "fps" = js_or (field fields "fps") (JNum 25) /\
  field cfg "format" = js_or (field fields "format") (JStr "mp4") /\
  field cfg "clips" = js_or (field fields "clips") (JArr []).
Proof.
  tracks_compared rt fields.
  intros [= <-]. repeat split; skip_assigns; reflexivity.
Qed.

(** The build operations as a caller invokes them, through the dispatcher. *)
Lemma stdio_call_image rt scfg sch args log :
  Stdio.callTool rt scfg sch "create_image_config" args log
  = match Stdio.image_config args with
    | Ok cfg => (Ok (built rt "image" cfg), log)
    | Throw e => (Ok (error_result ("Error: " ++ exn_message rt e)), log)
    end.
Proof.
  unfold Stdio.callTool, Stdio.dispatch, try_catch, lift, ret,
    Stdio.handleCreateImageConfig.
  cbn [String.eqb Ascii.eqb Bool.eqb].
  destruct (Stdio.image_config args); reflexivity.
Qed.

Lemma stdio_call_video rt scfg sch args log :
  Stdio.callTool rt scfg sch "create_video_config" args log
  = match Stdio.video_config rt args with
    | Ok cfg => (Ok (built rt "video" cfg), log)
    | Throw e => (Ok (error_result ("Error: " ++ exn_message rt e)), log)
    end.
Proof.
  unfold Stdio.callTool, Stdio.dispatch, try_catch, lift, ret,
    Stdio.handleCreateVideoConfig.
  cbn [String.eqb Ascii.eqb Bool.eqb].
  destruct (Stdio.video_config rt args); reflexivity.
Qed.

Lemma http_call_build rt sch this args log :
  Http.callTool rt sch this "create_image_config" args log
  = (Ok (text_result (json_text rt args)), log) /\
  Http.callTool rt sch this "create_video_config" args log
  = (Ok (text_result (json_text rt args)), log).
Proof. split; reflexivity. Qed.




(** C2 (as amended): from a bundle that holds only the collection, the stdio
    build operations return the text of [{type, config}] whose [config] is
    exactly the defaults of the shape and the supplied collection (image:
    width 1920, height 1080, layers; video: width 1280, height 720, fps 25,
    format mp4, clips) and no other key; the HTTP build operations
    substitute nothing and return the text of the bundle as it came. *)
Theorem build_from_collection_only rt scfg sch this items log :
  Stdio.callTool rt scfg sch "create_image_config" (JObj [("layers", JArr items)]) log
  = (Ok (built rt "image"
           [("width", JNum 1920); ("height", JNum 1080); ("layers", JArr items)]), log) /\
  Stdio.callTool rt scfg sch "create_video_config" (JObj [("clips", JArr items)]) log
  = (Ok (built rt "video"
           [("width", JNum 1280); ("height", JNum 720); ("fps", JNum 25);
            ("format", JStr "mp4"); ("clips", JArr items)]), log) /\
  Http.callTool rt sch this "create_image_config" (JObj [("layers", JArr items)]) log
  = (Ok (text_result (json_text rt (JObj [("layers", JArr items)]))), log) /\
  Http.callTool rt sch this "create_video_config" (JObj [("clips", JArr items)]) log
  = (Ok (text_result (json_text rt (JObj [("clips", JArr items)]))), log).
Proof.
  rewrite stdio_call_image, stdio_call_video.
  repeat split; reflexivity.
Qed.

(** C2, the claim as stated fails in the HTTP server: the text it returns
    for the bundle [{layers: []}] is that of [{layers: []}], with no [width]
    and no [height], whereas the stdio server returns the configuration
    with 1920 x 1080 added. *)
Lemma http_build_adds_no_defaults :
  let bundle := JObj [("layers", JArr [])] in
  Http.callTool demo_runtime demo_schemas {| Http.apiKey := "secret" |}
    "create_image_config" bundle []
  = (Ok (text_result (JStr (Demo.lines
       ["{";
        "  'layers': []";
        "}"]))), []) /\
  Stdio.callTool demo_runtime (Stdio.load_config None) demo_schemas
    "create_image_config" bundle []
  = (Ok (text_result (JStr (Demo.lines
       ["{";
        "  'type': 'image',";
        "  'config': {";
        "    'width': 1920,";
        "    'height': 1080,";
        "    'layers': []";
        "  }";
        "}"]))), []).
Proof. split; vm_compute; reflexivity. Qed.

Lemma image_config_keys fields cfg :
  Stdio.image_config (JObj fields) = Ok cfg ->
  Forall (fun k => k ∈ image_fields) (keys cfg).
Proof.
  unfold Stdio.image_config. cbn [get res_bind]. intros [= <-].
  repeat (apply keys_assign_when; [unfold image_fields; set_solver|]).
  repeat constructor; unfold image_fields; set_solver.
Qed.

Lemma video_config_keys rt fields cfg :
  Stdio.video_config rt (JObj fields) = Ok cfg ->
  Forall (fun k => k ∈ video_fields) (keys cfg).
Proof.
  tracks_compared rt fields.
  intros [= <-].
  repeat (apply keys_assign_when; [unfold video_fields; set_solver|]).
  repeat constructor; unfold video_fields; set_solver.
Qed.

Lemma image_config_copies fields cfg :
  Stdio.image_config (JObj fields) = Ok cfg ->
  Forall (fun k => field cfg k = field fields k)
         ["backgroundColor"; "format"; "quality"; "defaults"].
Proof.
  unfold Stdio.image_config. cbn [get res_bind]. intros [= <-].
  repeat (apply Forall_cons_2; [skip_assigns; apply field_assign_when_defined; skip_assigns; reflexivity|]).
  apply Forall_nil_2.
Qed.

Lemma video_config_copies rt fields cfg :
  Stdio.video_config rt (JObj fields) = Ok cfg ->
  Forall (fun k => field cfg k = field fields k)
         ["fast"; "loopAudio"; "outputVolume"; "keepSourceAudio"; "clipsAudioVolume"].
Proof.
  tracks_compared rt fields.
  intros [= <-].
  repeat (apply Forall_cons_2; [skip_assigns; apply field_assign_when_defined; skip_assigns; reflexivity|]).
  apply Forall_nil_2.
Qed.

(** The builders read the fields they know and no other: two bundles that
    agree on those are built alike. *)
Lemma image_config_reads fields fields' :
  (forall k, k ∈ image_fields -> field fields' k = field fields k) ->
  Stdio.image_config (JObj fields') = Stdio.image_config (JObj fields).
Proof.
  intros H. unfold Stdio.image_config. cbn [get res_bind].
  rewrite !H by (unfold image_fields; repeat constructor).
  reflexivity.
Qed.

Lemma video_config_reads rt fields fields' :
  (forall k, k ∈ video_fields -> field fields' k = field fields k) ->
  Stdio.video_config rt (JObj fields') = Stdio.video_config rt (JObj fields).
Proof.
  intros H. unfold Stdio.video_config. cbn [get res_bind].
  rewrite !H by (unfold video_fields; repeat constructor).
  reflexivity.
Qed.

(** C3 (as amended): no build operation fails because of a field it does
    not know.  The HTTP operations never fail and pass every field through:
    the text returned is that of the bundle.  The stdio operations keep only
    the fields they know: the text returned is that of [{type, config}],
    every key of [config] is one of [image_fields] (or [video_fields]), so a
    field of any other name is dropped; the optional fields guarded by
    [!== undefined] are copied with exactly the supplied value; and bundles
    that agree on the known fields get the same answer.  The image operation
    never fails on a bundle; the video operation fails on one bundle only,
    that whose [audioTracks.length] cannot be compared with [0], and then
    reports the TypeError of the comparison. *)
Theorem build_pass_through rt scfg sch this fields log :
  (forall args,
     Http.callTool rt sch this "create_image_config" args log
     = (Ok (text_result (json_text rt args)), log) /\
     Http.callTool rt sch this "create_video_config" args log
     = (Ok (text_result (json_text rt args)), log)) /\
  (exists cfg,
     Stdio.callTool rt scfg sch "create_image_config" (JObj fields) log
     = (Ok (built rt "image" cfg), log) /\
     Forall (fun k => k ∈ image_fields) (keys cfg) /\
     Forall (fun k => field cfg k = field fields k)
            ["backgroundColor"; "format"; "quality"; "defaults"]) /\
  match nonempty rt (field fields "audioTracks") with
  | Ok _ =>
      exists cfg,
        Stdio.callTool rt scfg sch "create_video_config" (JObj fields) log
        = (Ok (built rt "video" cfg), log) /\
        Forall (fun k => k ∈ video_fields) (keys cfg) /\
        Forall (fun k => field cfg k = field fields k)
               ["fast"; "loopAudio"; "outputVolume"; "keepSourceAudio";
                "clipsAudioVolume"]
  | Throw e =>
      Stdio.callTool rt scfg sch "create_video_config" (JObj fields) log
      = (Ok (error_result ("Error: " ++ exn_message rt e)), log)
  end /\
  (forall fields',
     (forall k, k ∈ image_fields -> field fields' k = field fields k) ->
     Stdio.callTool rt scfg sch "create_image_config" (JObj fields') log
     = Stdio.callTool rt scfg sch "create_image_config" (JObj fields) log) /\
  (forall fields',
     (forall k, k ∈ video_fields -> field fields' k = field fields k) ->
     Stdio.callTool rt scfg sch "create_video_config" (JObj fields') log
     = Stdio.callTool rt scfg sch "create_video_config" (JObj fields) log).
Proof.
  split; [intros args; apply http_call_build|].
  split; [|split; [|split]].
  - destruct (image_config_returns fields) as [cfg H]. exists cfg.
    rewrite stdio_call_image, H.
    eauto using image_config_keys, image_config_copies.
  - pose proof (video_config_outcome rt fields) as Hv.
    rewrite stdio_call_video.
    destruct (nonempty rt (field fields "audioTracks")) as [has|e].
    + destruct Hv as [cfg H]. exists cfg. rewrite H.
      eauto using video_config_keys, video_config_copies.
    + by rewrite Hv.
  - intros fields' Hsame.
    by rewrite !stdio_call_image, (image_config_reads fields fields' Hsame).
  - intros fields' Hsame.
    by rewrite !stdio_call_video, (video_config_reads rt fields fields' Hsame).
Qed.

Lemma build_pass_through_example :
  let answer fields :=
    Stdio.callTool demo_runtime (Stdio.load_config None) demo_schemas
      "create_image_config" (JObj fields) [] in
  answer [("watermark", JStr "draft"); ("layers", JArr []); ("quality", JNum 80)]
  = answer [("layers", JArr []); ("quality", JNum 80)].
Proof.
  intros answer.
  refine (proj1 (proj2 (proj2 (proj2
            (build_pass_through demo_runtime (Stdio.load_config None) demo_schemas
               {| Http.apiKey := "secret" |}
               [("layers", JArr []); ("quality", JNum 80)] []))))
            [("watermark", JStr "draft"); ("layers", JArr []); ("quality", JNum 80)] _).
  intros k Hk. unfold image_fields in Hk.
  repeat (apply elem_of_cons in Hk as [->|Hk]; [reflexivity|]).
  by apply elem_of_nil in Hk.
Defined.

(** C3, the claim as stated fails in the stdio server: a field the builder
    does not know ([watermark]) is absent from the text it returns, while
    the HTTP server returns it. *)
Lemma stdio_build_drops_unknown_field :
  let bundle := JObj [("layers", JArr []); ("watermark", JStr "draft")] in
  Stdio.callTool demo_runtime (Stdio.load_config None) demo_schemas
    "create_image_config" bundle []
  = (Ok (text_result (JStr (Demo.lines
       ["{";
        "  'type': 'image',";
        "  'config': {";
        "    'width': 1920,";
        "    'height': 1080,";
        "    'layers': []";
        "  }";
        "}"]))), []) /\
  Http.callTool demo_runtime demo_schemas {| Http.apiKey := "secret" |}
    "create_image_config" bundle []
  = (Ok (text_result (JStr (Demo.lines
       ["{";
        "  'layers': [],";
        "  'watermark': 'draft'";
        "}"]))), []).
Proof. split; vm_compute; reflexivity. Qed.

(** ** The validation report *)

Lemma nonempty_array rt (xs : list value) :
  nonempty rt (JArr xs) = Ok (match xs with [] => false | _ :: _ => true end).
Proof. destruct xs; reflexivity. Qed.

Lemma get_encoded_errors p :
  get (encode_validation p) "errors"
  = Ok (match errors p with
        | Some es => JArr (map encode_error es)
        | None => JUndefined
        end).
Proof. destruct p as [v [t|] [es|] [rs|]]; reflexivity. Qed.

Lemma get_encoded_resources p :
  get (encode_validation p) "detectedResources"
  = Ok (match detectedResources p with
        | Some rs => JArr (map encode_resource rs)
        | None => JUndefined
        end).
Proof. destruct p as [v [t|] [es|] [rs|]]; reflexivity. Qed.

Lemma get_encoded_tokens p :
  get (encode_validation p) "estimatedTokens"
  = Ok (match estimatedTokens p with
        | Some n => JNum n
        | None => JUndefined
        end).
Proof. destruct p as [v [t|] [es|] [rs|]]; reflexivity. Qed.

Lemma append_assoc (a b c : string) : (a ++ b) ++ c = a ++ (b ++ c).
Proof.
  induction a as [|x a IH]; [done|].
  change (String x ((a ++ b) ++ c) = String x (a ++ (b ++ c))). by rewrite IH.
Qed.

Lemma append_nil_r (a : string) : a ++ "" = a.
Proof.
  induction a as [|x a IH]; [done|].
  change (String x (a ++ "") = String x a). by rewrite IH.
Qed.

Lemma error_line_encoded rt idx e :
  Stdio.error_line rt (encode_error e) idx = Ok (error_text rt idx e).
Proof.
  destruct e as [m [f|]]; unfold Stdio.error_line, error_text; cbn; [|done].
  by destruct (String.eqb f "").
Qed.

Lemma resource_line_encoded rt idx r :
  Stdio.resource_line rt (encode_resource r) idx = Ok (resource_text rt r).
Proof.
  destruct r as [t u [n|]]; unfold Stdio.resource_line, resource_text; cbn; [|done].
  by destruct (n =? 0)%Z.
Qed.

Lemma error_lines_text rt es idx message :
  Stdio.forEach_from idx (map encode_error es) (Stdio.error_line rt) message
  = Ok (message ++ errors_text rt idx es).
Proof.
  revert idx message. induction es as [|e es IH]; intros idx message;
    cbn [map Stdio.forEach_from].
  - by rewrite append_nil_r.
  - rewrite error_line_encoded. cbn [res_bind]. rewrite IH. by rewrite append_assoc.
Qed.

Lemma resource_lines_text rt rs idx message :
  Stdio.forEach_from idx (map encode_resource rs) (Stdio.resource_line rt) message
  = Ok (message ++ resources_text rt rs).
Proof.
  revert idx message. induction rs as [|r rs IH]; intros idx message;
    cbn [map Stdio.forEach_from].
  - by rewrite append_nil_r.
  - rewrite resource_line_encoded. cbn [res_bind]. rewrite IH. by rewrite append_assoc.
Qed.

(** For a success-flagged answer the report is, to the letter, the text
    read off the payload. *)
Lemma report_of_payload rt (p : Validation) :
  Stdio.validation_report rt (success_body p)
  = Ok (text_result (JStr (report_text rt p))).
Proof.
  unfold Stdio.validation_report, success_body.
  cbn [get res_bind field obj_get String.eqb Ascii.eqb Bool.eqb truthy].
  change (truthy (encode_validation p)) with true. cbv iota.
  assert (Hvalid : get (encode_validation p) "isValid" = Ok (JBool (isValid p)))
    by reflexivity.
  rewrite Hvalid, get_encoded_tokens. cbn [res_bind truthy].
  unfold Stdio.errors_section, Stdio.resources_section.
  rewrite get_encoded_errors, get_encoded_resources. cbn [res_bind].
  unfold report_text.
  destruct p as [v t es rs]. cbn [isValid estimatedTokens errors detectedResources].
  assert (Herrors : forall m,
            (has_errors <- nonempty rt match es with
                                       | Some l => JArr (map encode_error l)
                                       | None => JUndefined
                                       end;;
             if has_errors
             then Stdio.forEach "validation.errors"
                    match es with
                    | Some l => JArr (map encode_error l)
                    | None => JUndefined
                    end (Stdio.error_line rt) (m ++ nl ++ "Errors:" ++ nl)
             else Ok m)
            = Ok (m ++ match es with
                       | Some (e :: l) => nl ++ "Errors:" ++ nl ++ errors_text rt 0 (e :: l)
                       | _ => ""
                       end)).
  { intros m. destruct es as [[|e l]|].
    - rewrite nonempty_array. cbn [res_bind]. by rewrite append_nil_r.
    - rewrite nonempty_array. cbn [res_bind Stdio.forEach].
      rewrite error_lines_text. by rewrite !append_assoc.
    - unfold nonempty. cbn [truthy res_bind]. by rewrite append_nil_r. }
  assert (Hresources : forall m,
            (has_resources <- nonempty rt match rs with
                                          | Some l => JArr (map encode_resource l)
                                          | None => JUndefined
                                          end;;
             if has_resources
             then Stdio.forEach "validation.detectedResources"
                    match rs with
                    | Some l => JArr (map encode_resource l)
                    | None => JUndefined
                    end (Stdio.resource_line rt)
                    (m ++ nl ++ "Detected Resources:" ++ nl)
             else Ok m)
            = Ok (m ++ match rs with
                       | Some (r :: l) =>
                           nl ++ "Detected Resources:" ++ nl ++ resources_text rt (r :: l)
                       | _ => ""
                       end)).
  { intros m. destruct rs as [[|r l]|].
    - rewrite nonempty_array. cbn [res_bind]. by rewrite append_nil_r.
    - rewrite nonempty_array. cbn [res_bind Stdio.forEach].
      rewrite resource_lines_text. by rewrite !append_assoc.
    - unfold nonempty. cbn [truthy res_bind]. by rewrite append_nil_r. }
  destruct t as [n|]; cbn [defined to_string res_bind];
    rewrite Herrors; cbn [res_bind]; rewrite Hresources; cbn [res_bind];
    do 3 f_equal; rewrite ?append_nil_r, !append_assoc; reflexivity.
Qed.

(** C8: for a success-flagged answer of the remote endpoint, the mapping to
    the caller-facing result returns, and returns a report that is no error,
    whichever of the optional parts (estimated cost, error list, field paths,
    detected resources, sizes) the payload has or lacks. *)
Theorem validation_report_returns rt (p : Validation) :
  exists message,
    Stdio.validation_report rt (success_body p) = Ok (text_result (JStr message)).
Proof. eexists. apply report_of_payload. Qed.

(** ** Validation in the stdio server *)






Lemma get_total_once_defined args k k' v :
  get args k = Ok v -> exists v', get args k' = Ok v'.
Proof. destruct args; simpl; intros H; try discriminate H; eauto. Qed.











(** ** The tool-dispatch boundary *)

(** A [try] whose [catch] returns never throws. *)
Lemma try_catch_returns {A} (m : M A) (h : exn -> A) log :
  exists a log', try_catch m (fun e => ret (h e)) log = (Ok a, log').
Proof.
  unfold try_catch, ret. destruct (m log) as [[a|e] log']; eauto.
Qed.

(** What is thrown inside the [try] comes back as the result the [catch]
    makes of it; what is returned comes back as it is. *)
Lemma try_catch_converts {A} (m : M A) (h : exn -> A) log log' :
  (forall e, m log = (Throw e, log') ->
     try_catch m (fun e => ret (h e)) log = (Ok (h e), log')) /\
  (forall a, m log = (Ok a, log') ->
     try_catch m (fun e => ret (h e)) log = (Ok a, log')).
Proof. unfold try_catch, ret. split; intros x ->; reflexivity. Qed.

Lemma unknown_tool_name name :
  name ∉ Stdio.tool_names ->
  String.eqb name "create_image_config" = false /\
  String.eqb name "create_video_config" = false /\
  String.eqb name "validate_config" = false /\
  String.eqb name "get_image_schema" = false /\
  String.eqb name "get_video_schema" = false.
Proof.
  intros Hnot. unfold Stdio.tool_names in Hnot.
  repeat split;
    (match goal with |- String.eqb name ?s = false =>
       destruct (String.eqb name s) eqn:E; [|reflexivity];
       apply String.eqb_eq in E; subst name; exfalso; apply Hnot; set_solver
     end).
Qed.

Lemma run_calls_returns rt sch server calls log :
  exists rs log', Http.run_calls rt sch server calls log = (Ok rs, log').
Proof.
  revert log. induction calls as [|[name args] rest IH]; intros log; simpl.
  - unfold ret. eauto.
  - unfold bind at 1.
    destruct (try_catch_returns (Http.dispatch rt sch server name args)
                (fun error => error_result ("Error: " ++ exn_message rt error)) log)
      as (r & log1 & Hr).
    unfold Http.callTool. rewrite Hr.
    unfold bind. destruct (IH log1) as (rs & log2 & ->).
    unfold ret. eauto.
Qed.

(** C7: the [CallToolRequestSchema] handler of either server never throws:
    whatever the tool name and the arguments, the caller gets a result
    through the normal channel, and whatever the dispatch throws is turned
    into the structured failure 'Error: <message>'.  A name that is no tool
    yields the structured failure 'Error: Unknown tool: <name>' with nothing
    sent.  In the HTTP server a request routed to a session is answered by
    that session and leaves the session map as it was. *)
Theorem dispatch_catches_errors rt cfg sch this name args log :
  (exists r log', Stdio.callTool rt cfg sch name args log = (Ok r, log')) /\
  (exists r log', Http.callTool rt sch this name args log = (Ok r, log')) /\
  (forall e log',
     (Stdio.dispatch rt cfg sch name args log = (Throw e, log') ->
      Stdio.callTool rt cfg sch name args log
      = (Ok (error_result ("Error: " ++ exn_message rt e)), log')) /\
     (Http.dispatch rt sch this name args log = (Throw e, log') ->
      Http.callTool rt sch this name args log
      = (Ok (error_result ("Error: " ++ exn_message rt e)), log'))) /\
  (name ∉ Stdio.tool_names ->
     Stdio.callTool rt cfg sch name args log
     = (Ok (error_result ("Error: Unknown tool: " ++ name)), log) /\
     Http.callTool rt sch this name args log
     = (Ok (error_result ("Error: Unknown tool: " ++ name)), log)) /\
  (forall sdk newSessionId req sessions sid server,
     Http.known_session sessions (Http.mcp_session_id req) = Some (sid, server) ->
     exists results log',
       Http.post_mcp rt sdk sch newSessionId req sessions log
       = (Http.Forwarded sid results, sessions, log')).
Proof.
  split; [apply try_catch_returns|].
  split; [apply try_catch_returns|].
  split; [|split].
  - intros e log'. split; intros Hthrown.
    + apply (proj1 (try_catch_converts (Stdio.dispatch rt cfg sch name args)
                      (fun error => error_result ("Error: " ++ exn_message rt error))
                      log log')).
      exact Hthrown.
    + apply (proj1 (try_catch_converts (Http.dispatch rt sch this name args)
                      (fun error => error_result ("Error: " ++ exn_message rt error))
                      log log')).
      exact Hthrown.
  - intros Hnot.
    destruct (unknown_tool_name name Hnot) as (E1 & E2 & E3 & E4 & E5).
    unfold Stdio.callTool, Http.callTool, Stdio.dispatch, Http.dispatch.
    rewrite E1, E2, E3, E4, E5.
    split; reflexivity.
  - intros sdk newSessionId req sessions sid server Hknown.
    unfold Http.post_mcp. rewrite Hknown.
    unfold Http.transport_handleRequest.
    destruct (run_calls_returns rt sch server (Http.tool_calls sdk (Http.req_body req)) log)
      as (rs & log' & ->).
    simpl. eauto.
Qed.

Lemma dispatch_unknown_tool_example :
  Stdio.callTool demo_runtime (Stdio.load_config None) demo_schemas
    "render_video" (JObj []) []
  = (Ok (error_result "Error: Unknown tool: render_video"), []) /\
  Http.callTool demo_runtime demo_schemas {| Http.apiKey := "secret" |}
    "render_video" (JObj []) []
  = (Ok (error_result "Error: Unknown tool: render_video"), []).
Proof.
  refine (proj1 (proj2 (proj2 (proj2
            (dispatch_catches_errors demo_runtime (Stdio.load_config None) demo_schemas
               {| Http.apiKey := "secret" |} "render_video" (JObj []) [])))) _).
  unfold Stdio.tool_names. intros Hin.
  repeat (apply elem_of_cons in Hin as [Hin|Hin]; [discriminate Hin|]).
  by apply elem_of_nil in Hin.
Defined.

(** ** The session multiplexer *)

(** The credential a [validate_config] call of a session sends: the
    [apiKey] argument when it is truthy, the session's credential if not. *)
Lemma http_validate_credential rt this args log :
  exists sent,
    (Http.handleValidateConfig rt this args log).2 = (log ++ sent)%list /\
    Forall (fun q => api_key_header q
                     = js_or (Http.opt_get args "apiKey") (JStr (Http.apiKey this)))
           sent.
Proof.
  unfold Http.handleValidateConfig, try_catch, bind, lift, ret, Http.opt_get.
  destruct (destructurable args "type") as [[]|e]; [|exists []; by rewrite app_nil_r].
  destruct (get args "type") as [type|e]; [|exists []; by rewrite app_nil_r].
  destruct (get args "config") as [config|e]; [|exists []; by rewrite app_nil_r].
  destruct (get args "apiKey") as [k|e]; [|exists []; by rewrite app_nil_r].
  unfold Http.getApiKey.
  destruct (truthy (js_or k (JStr (Http.apiKey this)))); cbn [negb];
    [|exists []; by rewrite app_nil_r].
  unfold post. cbn [axios_post].
  match goal with
  | |- context [axios_post rt ?q] =>
      exists [q]; destruct (axios_post rt q); simpl; split; try done;
      by repeat constructor
  end.
Qed.

Lemma http_callTool_credential rt sch this name args log :
  exists sent,
    (Http.callTool rt sch this name args log).2 = (log ++ sent)%list /\
    Forall (fun q => api_key_header q
                     = js_or (Http.opt_get args "apiKey") (JStr (Http.apiKey this)))
           sent.
Proof.
  unfold Http.callTool, Http.dispatch, try_catch.
  destruct (String.eqb name "create_image_config");
    [exists []; by rewrite app_nil_r|].
  destruct (String.eqb name "create_video_config");
    [exists []; by rewrite app_nil_r|].
  destruct (String.eqb name "validate_config").
  - destruct (http_validate_credential rt this args log) as (sent & Hlog & Hsent).
    exists sent. split; [|done].
    destruct (Http.handleValidateConfig rt this args log) as [[r|e] log']; exact Hlog.
  - destruct (String.eqb name "get_image_schema");
      [exists []; by rewrite app_nil_r|].
    destruct (String.eqb name "get_video_schema"); exists []; by rewrite app_nil_r.
Qed.

(** Every request the calls of one body send carries the credential of one
    of those calls. *)
Lemma run_calls_credential rt sch this calls log :
  exists sent,
    (Http.run_calls rt sch this calls log).2 = (log ++ sent)%list /\
    Forall (fun q => exists name args,
                (name, args) ∈ calls /\
                api_key_header q
                = js_or (Http.opt_get args "apiKey") (JStr (Http.apiKey this)))
           sent.
Proof.
  revert log. induction calls as [|[name args] rest IH]; intros log.
  - exists []. simpl. by rewrite app_nil_r.
  - destruct (http_callTool_credential rt sch this name args log)
      as (sent1 & Hlog1 & Hsent1).
    destruct (run_calls_returns rt sch this [(name, args)] log) as (r1 & l1 & H1).
    simpl in H1. unfold bind, ret in H1.
    destruct (Http.callTool rt sch this name args log) as [[r|e] log1] eqn:Hcall;
      [|discriminate H1].
    simpl in Hlog1. subst log1.
    destruct (IH (log ++ sent1)%list) as (sent2 & Hlog2 & Hsent2).
    exists (sent1 ++ sent2)%list. split.
    + simpl. unfold bind at 1. rewrite Hcall. unfold bind, ret.
      destruct (Http.run_calls rt sch this rest (log ++ sent1)%list) as [[rs|e] log2];
        simpl in *; by rewrite Hlog2, app_assoc.
    + apply Forall_app. split.
      * eapply Forall_impl; [exact Hsent1|].
        intros q Hq. exists name, args. split; [by left|done].
      * eapply Forall_impl; [exact Hsent2|].
        intros q (n & a & Hin & Hq). exists n, a. split; [by right|done].
Qed.

Lemma known_session_lookup (sessions : gmap string Http.JsoncutMCPServer) sid server :
  sid <> "" -> sessions !! sid = Some server ->
  Http.known_session sessions (Some sid) = Some (sid, server).
Proof.
  intros Hne Hsid. unfold Http.known_session.
  destruct (String.eqb sid "") eqn:E; [apply String.eqb_eq in E; contradiction|].
  by rewrite Hsid.
Qed.

Lemma known_session_inv (sessions : gmap string Http.JsoncutMCPServer) header sid server :
  Http.known_session sessions header = Some (sid, server) ->
  header = Some sid /\ sessions !! sid = Some server.
Proof.
  unfold Http.known_session. destruct header as [h|]; [|discriminate].
  destruct (String.eqb h ""); [discriminate|].
  destruct (sessions !! h) as [srv|] eqn:L; [|discriminate].
  intros [= <- <-]. done.
Qed.

Lemma known_session_absent (sessions : gmap string Http.JsoncutMCPServer) sid :
  sessions !! sid = None -> Http.known_session sessions (Some sid) = None.
Proof.
  intros Hsid. unfold Http.known_session. rewrite Hsid.
  by destruct (String.eqb sid "").
Qed.

(** A POST leaves the session map as it was or adds the session it creates,
    under the drawn identifier and with the credential of the request. *)
Lemma post_mcp_sessions rt sdk sch newSessionId req
    (sessions : gmap string Http.JsoncutMCPServer) log :
  (Http.post_mcp rt sdk sch newSessionId req sessions log).1.2 = sessions \/
  (Http.post_mcp rt sdk sch newSessionId req sessions log).1.2
  = <[newSessionId := {| Http.apiKey := default "" (Http.x_api_key req) |}]> sessions.
Proof.
  unfold Http.post_mcp, Http.answered.
  destruct (Http.known_session sessions (Http.mcp_session_id req)) as [[sid server]|].
  - left. by destruct (Http.transport_handleRequest _ _ _ _ _ _) as [[rs|e] l].
  - destruct (Http.isInitializeRequest (Http.req_body req)); cbn [negb]; [|by left].
    destruct (Http.header_truthy (Http.x_api_key req)); cbn [negb]; [|by left].
    right. by destruct (Http.transport_handleRequest _ _ _ _ _ _) as [[rs|e] l].
Qed.

(** The binding of a live session to its server survives every event that
    does not end that session. *)
Lemma step_keeps_session rt sdk sch ev (sessions : gmap string Http.JsoncutMCPServer)
    log sid server :
  Http.keeps sid ev -> sessions !! sid = Some server ->
  (Http.step rt sdk sch ev (sessions, log)).1 !! sid = Some server.
Proof.
  intros Hkeeps Hsid. destruct ev as [u req|req|req|sid']; simpl in *.
  - pose proof (post_mcp_sessions rt sdk sch u req sessions log) as Hpost.
    destruct (Http.post_mcp rt sdk sch u req sessions log) as [[reply s'] l'].
    simpl in *. destruct Hpost as [-> | ->]; [done|].
    by rewrite lookup_insert_ne.
  - unfold Http.get_mcp.
    by destruct (Http.known_session sessions (Http.mcp_session_id req)) as [[s srv]|].
  - unfold Http.delete_mcp.
    destruct (Http.known_session sessions (Http.mcp_session_id req)) as [[s srv]|] eqn:K;
      [|done].
    apply known_session_inv in K as [Hhdr _]. simpl.
    rewrite lookup_delete_ne; [done|]. intros ->. contradiction.
  - unfold Http.transport_onclose. by rewrite lookup_delete_ne.
Qed.

Lemma run_keeps_session rt sdk sch events st sid server :
  Forall (Http.keeps sid) events -> st.1 !! sid = Some server ->
  (Http.run rt sdk sch events st).1 !! sid = Some server.
Proof.
  unfold Http.run. revert st.
  induction events as [|ev events IH]; intros st Hall Hsid; [done|].
  inversion Hall as [|? ? Hev Hrest]; subst. simpl. apply IH; [done|].
  destruct st as [sessions log]. by apply step_keeps_session.
Qed.

(** A request routed to a session sends, for each call, the call's own
    [apiKey] argument or else the credential of the session's server. *)
Lemma routed_request_credential rt sdk sch newSessionId req
    (sessions : gmap string Http.JsoncutMCPServer) log sid server :
  Http.mcp_session_id req = Some sid -> sid <> "" -> sessions !! sid = Some server ->
  exists results sent,
    Http.post_mcp rt sdk sch newSessionId req sessions log
    = (Http.Forwarded sid results, sessions, (log ++ sent)%list) /\
    Forall (fun q => exists name args,
                (name, args) ∈ Http.tool_calls sdk (Http.req_body req) /\
                api_key_header q
                = js_or (Http.opt_get args "apiKey") (JStr (Http.apiKey server)))
           sent.
Proof.
  intros Hhdr Hne Hsid. unfold Http.post_mcp.
  rewrite Hhdr, (known_session_lookup _ _ _ Hne Hsid).
  unfold Http.transport_handleRequest.
  destruct (run_calls_credential rt sch server
              (Http.tool_calls sdk (Http.req_body req)) log) as (sent & Hlog & Hsent).
  destruct (run_calls_returns rt sch server
              (Http.tool_calls sdk (Http.req_body req)) log) as (rs & log' & Hrun).
  rewrite Hrun in *. simpl in Hlog. subst log'.
  exists rs, sent. done.
Qed.

(** A POST with an initialize body and a credential that is routed to no
    session creates one, under the drawn identifier, bound to that
    credential. *)
Lemma post_mcp_creates rt sdk sch newSessionId req
    (sessions : gmap string Http.JsoncutMCPServer) log C :
  Http.known_session sessions (Http.mcp_session_id req) = None ->
  Http.isInitializeRequest (Http.req_body req) = true ->
  Http.x_api_key req = Some C -> C <> "" ->
  (Http.post_mcp rt sdk sch newSessionId req sessions log).1.2
  = <[newSessionId := {| Http.apiKey := C |}]> sessions.
Proof.
  intros Hknown Hinit Hkey HC. unfold Http.post_mcp, Http.answered.
  rewrite Hknown, Hinit, Hkey. cbn [negb Http.header_truthy default].
  destruct (String.eqb C "") eqn:E; [apply String.eqb_eq in E; contradiction|].
  cbn [negb]. by destruct (Http.transport_handleRequest _ _ _ _ _ _) as [[rs|e] l].
Qed.

(** C4 (as amended): a session created with credential [C] stays bound to
    [C] for as long as it is not ended, and a later request bearing its
    identifier is answered by that session whatever [x-api-key] header the
    later request bears.  Each remote call such a request makes carries the
    [apiKey] argument of the tool call when that argument is truthy, and [C]
    otherwise; so with no [apiKey] argument every call carries [C]. *)
Theorem session_credential_reused rt sdk sch C newSessionId init st0 later req
    newSessionId' :
  Http.known_session st0.1 (Http.mcp_session_id init) = None ->
  Http.isInitializeRequest (Http.req_body init) = true ->
  Http.x_api_key init = Some C -> C <> "" -> newSessionId <> "" ->
  Forall (Http.keeps newSessionId) later ->
  Http.mcp_session_id req = Some newSessionId ->
  let st1 := Http.step rt sdk sch (Http.POST newSessionId init) st0 in
  let st2 := Http.run rt sdk sch later st1 in
  st2.1 !! newSessionId = Some {| Http.apiKey := C |} /\
  exists results sent,
    Http.post_mcp rt sdk sch newSessionId' req st2.1 st2.2
    = (Http.Forwarded newSessionId results, st2.1, (st2.2 ++ sent)%list) /\
    Forall (fun q => exists name args,
                (name, args) ∈ Http.tool_calls sdk (Http.req_body req) /\
                api_key_header q = js_or (Http.opt_get args "apiKey") (JStr C))
           sent /\
    ((forall name args,
        (name, args) ∈ Http.tool_calls sdk (Http.req_body req) ->
        truthy (Http.opt_get args "apiKey") = false) ->
     Forall (fun q => api_key_header q = JStr C) sent).
Proof.
  intros Hknown Hinit Hkey HC Hid Hlater Hreq st1 st2.
  assert (Hst1 : st1.1 !! newSessionId = Some {| Http.apiKey := C |}).
  { subst st1. destruct st0 as [sessions log]. simpl in *.
    pose proof (post_mcp_creates rt sdk sch newSessionId init sessions log C
                  Hknown Hinit Hkey HC) as Hcreated.
    destruct (Http.post_mcp rt sdk sch newSessionId init sessions log) as [[reply s'] l'].
    simpl in *. subst s'. apply lookup_insert_eq. }
  assert (Hst2 : st2.1 !! newSessionId = Some {| Http.apiKey := C |})
    by (subst st2; by apply run_keeps_session).
  split; [done|].
  destruct (routed_request_credential rt sdk sch newSessionId' req st2.1 st2.2
              newSessionId _ Hreq Hid Hst2) as (results & sent & Hpost & Hsent).
  exists results, sent. split; [done|]. split; [done|].
  intros Hnone. eapply Forall_impl; [exact Hsent|].
  intros q (name & args & Hin & Hq). rewrite Hq. unfold js_or.
  by rewrite (Hnone name args Hin).
Qed.

(** C5 (as amended): an identifier that is in the session map no more (its
    session was deleted or its transport closed) or was never in it is
    unknown to the routes.  A GET or a DELETE bearing an unknown identifier,
    and a POST bearing one whose body is no initialize request, is rejected
    with status 400 and changes neither the session map nor anything else; a
    POST bearing one whose body is an initialize request is treated as a new
    connection: rejected with 401 when it bears no credential, and creating
    a session under a new identifier when it bears one. *)
Theorem unknown_session_rejected rt sdk sch newSessionId req
    (sessions : gmap string Http.JsoncutMCPServer) log :
  (forall sid,
     Http.known_session (Http.delete_mcp req sessions).2 (Http.mcp_session_id req) = None /\
     Http.known_session (Http.transport_onclose sid sessions) (Some sid) = None /\
     (sessions !! sid = None -> Http.known_session sessions (Some sid) = None)) /\
  (Http.known_session sessions (Http.mcp_session_id req) = None ->
     Http.get_mcp req sessions
     = (Http.TextError 400 "Invalid or missing session ID", sessions) /\
     Http.delete_mcp req sessions
     = (Http.TextError 400 "Invalid or missing session ID", sessions) /\
     (Http.isInitializeRequest (Http.req_body req) = false ->
        Http.post_mcp rt sdk sch newSessionId req sessions log
        = (Http.JsonRpcError 400 (-32000)
             "Bad Request: No valid session ID provided or not an initialize request",
           sessions, log)) /\
     (Http.isInitializeRequest (Http.req_body req) = true ->
        Http.header_truthy (Http.x_api_key req) = false ->
        Http.post_mcp rt sdk sch newSessionId req sessions log
        = (Http.JsonRpcError 401 (-32000) "Missing X-API-Key header", sessions, log)) /\
     (Http.isInitializeRequest (Http.req_body req) = true ->
        forall C, Http.x_api_key req = Some C -> C <> "" ->
        (Http.post_mcp rt sdk sch newSessionId req sessions log).1.2
        = <[newSessionId := {| Http.apiKey := C |}]> sessions)).
Proof.
  split.
  - intros sid. split; [|split].
    + unfold Http.delete_mcp.
      destruct (Http.known_session sessions (Http.mcp_session_id req))
        as [[s srv]|] eqn:K; [|done].
      apply known_session_inv in K as [-> _]. simpl.
      apply known_session_absent, lookup_delete_eq.
    + apply known_session_absent, lookup_delete_eq.
    + apply known_session_absent.
  - intros Hunknown. split; [|split; [|split; [|split]]].
    + unfold Http.get_mcp. by rewrite Hunknown.
    + unfold Http.delete_mcp. by rewrite Hunknown.
    + intros Hinit. unfold Http.post_mcp. by rewrite Hunknown, Hinit.
    + intros Hinit Hkey. unfold Http.post_mcp. by rewrite Hunknown, Hinit, Hkey.
    + intros Hinit C Hkey HC.
      by apply (post_mcp_creates rt sdk sch newSessionId req sessions log C).
Qed.

Lemma session_credential_reused_example :
  let init := {| Http.mcp_session_id := None; Http.x_api_key := Some "key-A";
                 Http.req_body := initialize_message |} in
  let later := [Http.GET {| Http.mcp_session_id := Some "s-1"; Http.x_api_key := None;
                            Http.req_body := JUndefined |};
                Http.Closed "s-0"] in
  let req := {| Http.mcp_session_id := Some "s-1"; Http.x_api_key := Some "key-B";
                Http.req_body :=
                  tools_call "validate_config"
                    (JObj [("type", JStr "image"); ("config", JObj [])]) |} in
  let st := Http.run demo_runtime demo_sdk demo_schemas later
              (Http.step demo_runtime demo_sdk demo_schemas (Http.POST "s-1" init) (∅, [])) in
  exists results sent,
    Http.post_mcp demo_runtime demo_sdk demo_schemas "s-2" req st.1 st.2
    = (Http.Forwarded "s-1" results, st.1, (st.2 ++ sent)%list) /\
    Forall (fun q => api_key_header q = JStr "key-A") sent.
Proof.
  intros init later req st.
  destruct (session_credential_reused demo_runtime demo_sdk demo_schemas "key-A" "s-1"
              init (∅, []) later req "s-2")
    as (_ & results & sent & Hpost & _ & Hsent).
  - reflexivity.
  - reflexivity.
  - reflexivity.
  - discriminate.
  - discriminate.
  - repeat constructor. discriminate.
  - reflexivity.
  - exists results, sent. split; [exact Hpost|]. apply Hsent.
    intros name args Hin. apply list_elem_of_singleton in Hin.
    injection Hin as -> ->. reflexivity.
Defined.

(** C4, the claim as stated fails: in a session created with credential
    [key-A], a [validate_config] call whose arguments hold [apiKey: key-B]
    reaches the remote endpoint with [key-B]. *)
Lemma apiKey_argument_overrides_session :
  let init := {| Http.mcp_session_id := None; Http.x_api_key := Some "key-A";
                 Http.req_body := initialize_message |} in
  let req := {| Http.mcp_session_id := Some "s-1"; Http.x_api_key := None;
                Http.req_body :=
                  tools_call "validate_config"
                    (JObj [("type", JStr "image"); ("config", JObj []);
                           ("apiKey", JStr "key-B")]) |} in
  let st := Http.step demo_runtime demo_sdk demo_schemas (Http.POST "s-1" init) (∅, []) in
  st.1 !! "s-1" = Some {| Http.apiKey := "key-A" |} /\
  (Http.post_mcp demo_runtime demo_sdk demo_schemas "s-2" req st.1 st.2).2
  = [validation_request (JStr "image") (JObj []) (JStr "key-B")].
Proof. split; vm_compute; reflexivity. Qed.

Lemma unknown_session_rejected_example :
  let sessions : gmap string Http.JsoncutMCPServer :=
    {["s-1" := {| Http.apiKey := "key-A" |}]} in
  let req := {| Http.mcp_session_id := Some "ghost"; Http.x_api_key := Some "key-B";
                Http.req_body := tools_call "get_image_schema" (JObj []) |} in
  Http.get_mcp req sessions
  = (Http.TextError 400 "Invalid or missing session ID", sessions) /\
  Http.delete_mcp req sessions
  = (Http.TextError 400 "Invalid or missing session ID", sessions) /\
  Http.post_mcp demo_runtime demo_sdk demo_schemas "s-2" req sessions []
  = (Http.JsonRpcError 400 (-32000)
       "Bad Request: No valid session ID provided or not an initialize request",
     sessions, []).
Proof.
  intros sessions req.
  destruct (proj2 (unknown_session_rejected demo_runtime demo_sdk demo_schemas "s-2"
                     req sessions []))
    as (Hget & Hdelete & Hpost & _).
  - vm_compute. reflexivity.
  - split; [exact Hget|]. split; [exact Hdelete|]. apply Hpost. reflexivity.
Defined.

(** C5, the claim as stated fails: a POST that bears an identifier never
    issued, an initialize body and a credential is not rejected; it creates
    a session. *)
Lemma initialize_with_unknown_session_creates :
  let req := {| Http.mcp_session_id := Some "ghost"; Http.x_api_key := Some "key-B";
                Http.req_body := initialize_message |} in
  let out := Http.post_mcp demo_runtime demo_sdk demo_schemas "s-2" req ∅ [] in
  Http.known_session ∅ (Http.mcp_session_id req) = None /\
  out.1.1 = Http.Forwarded "s-2" [] /\
  out.1.2 !! "s-2" = Some {| Http.apiKey := "key-B" |}.
Proof. repeat split; vm_compute; reflexivity. Qed.

(** C6 (as amended): a POST with an initialize body that is routed to no
    session and bears no credential is rejected with status 401 and 'Missing
    X-API-Key header'; no session is created and nothing else changes.  A
    following GET or DELETE bearing an identifier that is not in the map,
    and a following POST bearing one with a body that is no initialize
    request, is rejected with status 400 and again leaves the map as it
    was. *)
Theorem initialize_without_credential_rejected rt sdk sch newSessionId req
    (sessions : gmap string Http.JsoncutMCPServer) log :
  Http.known_session sessions (Http.mcp_session_id req) = None ->
  Http.isInitializeRequest (Http.req_body req) = true ->
  Http.header_truthy (Http.x_api_key req) = false ->
  Http.post_mcp rt sdk sch newSessionId req sessions log
  = (Http.JsonRpcError 401 (-32000) "Missing X-API-Key header", sessions, log) /\
  Http.step rt sdk sch (Http.POST newSessionId req) (sessions, log) = (sessions, log) /\
  forall invented next newSessionId',
    sessions !! invented = None ->
    Http.mcp_session_id next = Some invented ->
    Http.get_mcp next sessions
    = (Http.TextError 400 "Invalid or missing session ID", sessions) /\
    Http.delete_mcp next sessions
    = (Http.TextError 400 "Invalid or missing session ID", sessions) /\
    (Http.isInitializeRequest (Http.req_body next) = false ->
     Http.post_mcp rt sdk sch newSessionId' next sessions log
     = (Http.JsonRpcError 400 (-32000)
          "Bad Request: No valid session ID provided or not an initialize request",
        sessions, log)).
Proof.
  intros Hunknown Hinit Hkey.
  assert (Hpost : Http.post_mcp rt sdk sch newSessionId req sessions log
                  = (Http.JsonRpcError 401 (-32000) "Missing X-API-Key header",
                     sessions, log)).
  { unfold Http.post_mcp. by rewrite Hunknown, Hinit, Hkey. }
  split; [exact Hpost|]. split.
  - simpl. by rewrite Hpost.
  - intros invented next newSessionId' Hfresh Hnext.
    pose proof (known_session_absent sessions invented Hfresh) as Hnone.
    rewrite <- Hnext in Hnone.
    unfold Http.get_mcp, Http.delete_mcp, Http.post_mcp. rewrite Hnone.
    split; [done|]. split; [done|]. by intros ->.
Qed.

Lemma initialize_without_credential_example :
  let req := {| Http.mcp_session_id := None; Http.x_api_key := None;
                Http.req_body := initialize_message |} in
  let next := {| Http.mcp_session_id := Some "s-1"; Http.x_api_key := None;
                 Http.req_body := tools_call "get_video_schema" (JObj []) |} in
  Http.post_mcp demo_runtime demo_sdk demo_schemas "s-1" req ∅ []
  = (Http.JsonRpcError 401 (-32000) "Missing X-API-Key header", ∅, []) /\
  Http.post_mcp demo_runtime demo_sdk demo_schemas "s-2" next ∅ []
  = (Http.JsonRpcError 400 (-32000)
       "Bad Request: No valid session ID provided or not an initialize request",
     ∅, []).
Proof.
  intros req next.
  destruct (initialize_without_credential_rejected demo_runtime demo_sdk demo_schemas
              "s-1" req ∅ [] eq_refl eq_refl eq_refl)
    as (Hrejected & _ & Hnext).
  split; [exact Hrejected|].
  destruct (Hnext "s-1" next "s-2" (lookup_empty _) eq_refl) as (_ & _ & Hpost).
  apply Hpost. reflexivity.
Defined.

(** C6, the claim as stated fails: after the rejected attempt, a request
    that bears an invented identifier is not bound to fail; with an
    initialize body and a credential it creates a session. *)
Lemma invented_session_initialize_creates :
  let rejected := {| Http.mcp_session_id := None; Http.x_api_key := None;
                     Http.req_body := initialize_message |} in
  let next := {| Http.mcp_session_id := Some "invented"; Http.x_api_key := Some "key-B";
                 Http.req_body := initialize_message |} in
  let st := Http.step demo_runtime demo_sdk demo_schemas (Http.POST "s-1" rejected) (∅, []) in
  let out := Http.post_mcp demo_runtime demo_sdk demo_schemas "s-2" next st.1 st.2 in
  st.1 !! "invented" = None /\
  out.1.1 = Http.Forwarded "s-2" [] /\
  out.1.2 !! "s-2" = Some {| Http.apiKey := "key-B" |}.
Proof. repeat split; vm_compute; reflexivity. Qed.

(** ** Worked runs of the model *)

Example to_string_array :
  to_string demo_runtime (JArr [JNum 1; JNull; JStr "a"; JArr [JNum 2; JNum (-3)]])
  = Ok "1,,a,2,-3".
Proof. reflexivity. Qed.

(** An object with an own [toString] property has no conversion, alone or
    as an item of an array; a number prints in exponent form from 1e21. *)
Example to_string_unconvertible :
  to_string demo_runtime (JObj [("toString", JNum 0)]) = Throw (TypeError CannotConvert) /\
  to_string demo_runtime (JArr [JNum 1; JObj [("toString", JNum 0)]])
  = Throw (TypeError CannotConvert) /\
  to_string demo_runtime (JObj [("valueOf", JNum 0)]) = Ok "[object Object]" /\
  to_string demo_runtime (JNum (10 ^ 21)) = Ok "1e+21" /\
  to_string demo_runtime (JNum (10 ^ 21 - 2 ^ 17)) = Ok "999999999999999900000" /\
  to_string demo_runtime (JNum (2 ^ 70)) = Ok "1.1805916207174113e+21".
Proof. repeat split; vm_compute; reflexivity. Qed.

Example video_config_guards :
  Stdio.video_config demo_runtime
    (JObj [("clips", JArr []); ("audioFilePath", JStr ""); ("audioTracks", JArr []);
           ("defaults", JNull); ("fast", JBool false)])
  = Ok [("width", JNum 1280); ("height", JNum 720); ("fps", JNum 25);
        ("format", JStr "mp4"); ("clips", JArr []); ("fast", JBool false)].
Proof. reflexivity. Qed.

(** The comparison [audioTracks.length > 0] throws when the length has no
    conversion to a primitive; the dispatch boundary reports it. *)
Example video_config_unconvertible_length :
  let bundle :=
    JObj [("clips", JArr []);
          ("audioTracks", JObj [("length", JObj [("toString", JNum 0)])])] in
  Stdio.video_config demo_runtime bundle = Throw (TypeError CannotConvert) /\
  Stdio.callTool demo_runtime (Stdio.load_config None) demo_schemas
    "create_video_config" bundle []
  = (Ok (error_result "Error: Cannot convert object to primitive value"), []).
Proof. split; reflexivity. Qed.

Example validation_report_full :
  Stdio.validation_report demo_runtime
    (success_body
       {| isValid := false;
          estimatedTokens := Some 12%Z;
          errors := Some [ {| e_message := "bad layer"; e_field := Some "layers[0]" |};
                           {| e_message := "too big"; e_field := None |} ];
          detectedResources :=
            Some [ {| r_type := "image"; r_url := "/image/a.png";
                      r_size := Some 1572864%Z |} ] |})
  = Ok (text_result (JStr (
      "Validation Result:" ++ nl ++
      "- Valid: ❌ No" ++ nl ++
      "- Estimated Tokens: 12" ++ nl ++
      nl ++ "Errors:" ++ nl ++
      "  1. bad layer (field: layers[0])" ++ nl ++
      "  2. too big" ++ nl ++
      nl ++ "Detected Resources:" ++ nl ++
      "  - image: /image/a.png (1.50 MB)" ++ nl))).
Proof. vm_compute. reflexivity. Qed.

(** A report whose error list is no array makes the mapping throw; the
    [catch] block of the handler turns that into a structured error. *)
Example validation_report_ill_typed :
  Stdio.validation_report demo_runtime
    (JObj [("success", JBool true);
           ("data", JObj [("isValid", JBool false);
                          ("errors", JObj [("length", JNum 2)])])])
  = Throw (TypeError (NotAFunction "validation.errors.forEach")).
Proof. reflexivity. Qed.

(** A builder that throws on missing arguments is caught at the dispatch
    boundary. *)
Example dispatch_catches_builder_throw :
  Stdio.callTool demo_runtime (Stdio.load_config None) demo_schemas
    "create_image_config" JUndefined []
  = (Ok (error_result "Error: Cannot read properties of undefined (reading 'width')"),
     []).
Proof. reflexivity. Qed.

(** When the [catch] block of [handleValidateConfig] itself throws (the
    remote answered 500 with the body [null]), the handler throws and the
    dispatch boundary still returns a result. *)
Example dispatch_catches_catch_block_throw :
  let args := JObj [("type", JStr "image"); ("config", JObj [])] in
  let cfg := Stdio.load_config (Some "secret") in
  (Stdio.handleValidateConfig broken_remote_runtime cfg args []).1
  = Throw (TypeError (CannotRead JNull "error")) /\
  Stdio.callTool broken_remote_runtime cfg demo_schemas "validate_config" args []
  = (Ok (error_result "Error: Cannot read properties of null (reading 'error')"),
     [validation_request (JStr "image") (JObj []) (JStr "secret")]).
Proof. split; reflexivity. Qed.

(** ** What the handlers can throw *)

(** Induction on a value through the items of its arrays. *)
Lemma value_items_ind (P : value -> Prop) :
  P JUndefined -> P JNull -> (forall b, P (JBool b)) -> (forall n, P (JNum n)) ->
  (forall s, P (JStr s)) -> (forall xs, Forall P xs -> P (JArr xs)) ->
  (forall o, P (JObj o)) ->
  forall v, P v.
Proof.
  intros Hu Hn Hb Hz Hs Ha Ho.
  exact (fix go (v : value) : P v :=
           match v with
           | JUndefined => Hu
           | JNull => Hn
           | JBool b => Hb b
           | JNum n => Hz n
           | JStr s => Hs s
           | JArr xs =>
               Ha xs ((fix items (l : list value) : Forall P l :=
                         match l with
                         | [] => Forall_nil_2 P
                         | x :: rest => Forall_cons_2 P x rest (go x) (items rest)
                         end) xs)
           | JObj o => Ho o
           end).
Qed.

(** The one thing ToString throws is the TypeError of the conversion. *)
Lemma to_string_throws rt v e :
  to_string rt v = Throw e -> e = TypeError CannotConvert.
Proof.
  revert e. induction v as [| |b|n|s|xs IH|o] using value_items_ind; intros e;
    cbn [to_string]; try discriminate.
  - by destruct b.
  - induction IH as [|x rest Hx Hrest IHrest]; [discriminate|].
    destruct (match x with
              | JUndefined | JNull => Ok ""
              | _ => to_string rt x
              end) as [sx|ex] eqn:Ex; cbn [res_bind].
    + destruct rest as [|y rest']; [discriminate|].
      match goal with
      | |- context [res_bind ?m _] => destruct m as [tail|et] eqn:Et
      end; cbn [res_bind]; [discriminate|].
      intros [= <-]. by apply IHrest.
    + intros [= <-]. destruct x; try discriminate Ex; by apply Hx.
  - destruct (obj_get o "toString"); [by intros [= <-]|discriminate].
Qed.

Lemma internal_ok {A} (a : A) : internal (Ok a).
Proof. intros e H. discriminate H. Qed.

Lemma internal_throw {A} e : exn_response e = None -> internal (@Throw A e).
Proof. intros He e' [= <-]. exact He. Qed.

Lemma internal_bind {A B} (m : res A) (k : A -> res B) :
  internal m -> (forall a, internal (k a)) -> internal (res_bind m k).
Proof.
  intros Hm Hk e. destruct m as [a|e']; cbn [res_bind].
  - apply Hk.
  - intros [= <-]. by apply Hm.
Qed.

Lemma internal_get v k : internal (get v k).
Proof.
  intros e. destruct v; simpl; intros H; try discriminate H; by injection H as <-.
Qed.

Lemma internal_to_string rt v : internal (to_string rt v).
Proof. intros e H. by rewrite (to_string_throws _ _ _ H). Qed.

Lemma internal_destructurable v k : internal (destructurable v k).
Proof.
  intros e. destruct v; simpl; intros H; try discriminate H; by injection H as <-.
Qed.

Ltac internal_step :=
  match goal with
  | |- internal (res_bind _ _) => apply internal_bind; [|intros ?]
  | |- internal (Ok _) => apply internal_ok
  | |- internal (Throw _) => by apply internal_throw
  | |- internal (get _ _) => apply internal_get
  | |- internal (to_string _ _) => apply internal_to_string
  | |- internal (destructurable _ _) => apply internal_destructurable
  | |- internal (if ?b then _ else _) => destruct b
  | |- internal (match ?x with _ => _ end) => destruct x
  end.

Lemma internal_to_primitive rt v : internal (to_primitive rt v).
Proof. unfold to_primitive. repeat internal_step. Qed.

Lemma internal_nonempty rt v : internal (nonempty rt v).
Proof.
  unfold nonempty, js_gt0.
  repeat first [apply internal_to_primitive | internal_step].
Qed.

Lemma internal_forEach who v f m :
  (forall x i, internal (f x i)) -> internal (Stdio.forEach who v f m).
Proof.
  intros Hf. destruct v; try (by apply internal_throw).
  cbn [Stdio.forEach]. generalize 0 as idx. revert m.
  induction items as [|x xs IH]; intros m idx; cbn [Stdio.forEach_from].
  - apply internal_ok.
  - apply internal_bind; [apply Hf|]. intros piece. apply IH.
Qed.

Lemma internal_error_line rt x i : internal (Stdio.error_line rt x i).
Proof. unfold Stdio.error_line. repeat internal_step. Qed.

Lemma internal_resource_line rt x i : internal (Stdio.resource_line rt x i).
Proof.
  unfold Stdio.resource_line, megabytes.
  repeat first [apply internal_to_primitive | internal_step].
Qed.

Lemma validation_report_throws_type_error rt result e :
  Stdio.validation_report rt result = Throw e -> exn_response e = None.
Proof.
  revert e. change (internal (Stdio.validation_report rt result)).
  unfold Stdio.validation_report, Stdio.errors_section, Stdio.resources_section.
  repeat first
    [ apply internal_nonempty
    | apply internal_forEach; intros ? ?;
      first [apply internal_error_line | apply internal_resource_line]
    | internal_step ].
Qed.

Lemma validate_request_throws_error rt cfg args e :
  Stdio.validate_request rt cfg args = Throw e ->
  exn_response e = None.
Proof.
  revert e. change (internal (Stdio.validate_request rt cfg args)).
  unfold Stdio.validate_request, Stdio.getApiKey.
  repeat internal_step.
Qed.

(** ** Further properties: validation in the stdio server *)

(** What [handleValidateConfig] does once its preconditions hold. *)
Lemma validate_after_request rt cfg args req log :
  Stdio.validate_request rt cfg args = Ok req ->
  Stdio.handleValidateConfig rt cfg args log
  = (match axios_post rt req with
     | Fulfilled r =>
         match Stdio.validation_report rt (data r) with
         | Ok result => Ok result
         | Throw e => Stdio.validate_catch rt e
         end
     | Rejected msg r => Stdio.validate_catch rt (AxiosError msg r)
     end, (log ++ [req])%list).
Proof.
  intros Hreq.
  unfold Stdio.handleValidateConfig, try_catch, bind, lift, post. rewrite Hreq.
  destruct (axios_post rt req) as [r|msg r]; [|reflexivity].
  destruct (Stdio.validation_report rt (data r)); reflexivity.
Qed.

(** The [catch] block returns for whatever has no [response]. *)
Lemma validate_catch_without_response rt e :
  exn_response e = None ->
  Stdio.validate_catch rt e
  = Ok (error_result ("Validation Error: "
          ++ (if String.eqb (exn_message rt e) "" then "Unknown error occurred"
              else exn_message rt e))).
Proof. intros H. unfold Stdio.validate_catch. rewrite H. reflexivity. Qed.

(** The message of an error response is read off its body, which the read
    of [error] requires to be neither [null] nor [undefined]. *)
Lemma response_cause_outcome rt resp :
  match get (data resp) "error" with
  | Ok _ => exists cause, Stdio.response_cause rt resp = Ok cause
  | Throw e => Stdio.response_cause rt resp = Throw e
  end.
Proof.
  unfold Stdio.response_cause.
  destruct (get (data resp) "error") as [err|e] eqn:G; cbn [res_bind]; [|done].
  destruct (get_total_once_defined _ _ "message" _ G) as [m ->]. cbn [res_bind].
  destruct (truthy err); eauto.
Qed.

(** For an error response the [catch] block prints the message it read, and
    a truthy [details] after it; converting the message to a string is the
    one step that can fail then. *)
Lemma validate_catch_response rt msg resp cause :
  Stdio.response_cause rt resp = Ok cause ->
  exists details,
    get (data resp) "details" = Ok details /\
    Stdio.validate_catch rt (AxiosError msg (Some resp))
    = (text <- to_string rt cause;;
       Ok (error_result
             ("Validation Error: "
              ++ (if truthy details
                  then text ++ nl ++ "Details: " ++ json_template rt details
                  else text)))).
Proof.
  intros Hcause.
  pose proof (response_cause_outcome rt resp) as Hout.
  destruct (get (data resp) "error") as [err|e] eqn:G;
    [|rewrite Hout in Hcause; discriminate Hcause].
  destruct (get_total_once_defined _ _ "details" _ G) as [details Hd].
  exists details. split; [done|].
  unfold Stdio.validate_catch. cbn [exn_response]. rewrite Hcause, Hd.
  cbn [res_bind].
  destruct (truthy details); [|reflexivity].
  destruct (to_string rt cause); reflexivity.
Qed.

Lemma validate_request_url rt cfg args req :
  Stdio.validate_request rt cfg args = Ok req -> url req = "/api/v1/jobs/validate".
Proof.
  unfold Stdio.validate_request.
  destruct (destructurable args "type"); cbn [res_bind]; [|discriminate].
  destruct (get args "type") as [type|]; cbn [res_bind]; [|discriminate].
  destruct (get args "config") as [config|]; cbn [res_bind]; [|discriminate].
  destruct (get args "apiKey") as [k|]; cbn [res_bind]; [|discriminate].
  destruct (truthy type); cbn [negb]; [|discriminate].
  destruct (truthy config); cbn [negb]; [|discriminate].
  destruct (match config with JStr s => _ | _ => _ end); cbn [res_bind]; [|discriminate].
  destruct (Stdio.getApiKey cfg k); cbn [res_bind]; [|discriminate].
  by intros [= <-].
Qed.

Lemma validate_request_thrown rt cfg args e log :
  Stdio.validate_request rt cfg args = Throw e ->
  Stdio.handleValidateConfig rt cfg args log = (Stdio.validate_catch rt e, log).
Proof.
  intros H. unfold Stdio.handleValidateConfig, try_catch, bind, lift. by rewrite H.
Qed.

(** Whatever [handleValidateConfig] throws was thrown by its [catch] block
    at work on an error response. *)
Lemma stdio_validate_throws_in_catch rt cfg args log e :
  (Stdio.handleValidateConfig rt cfg args log).1 = Throw e ->
  exists req msg resp,
    Stdio.validate_request rt cfg args = Ok req /\
    axios_post rt req = Rejected msg (Some resp) /\
    Stdio.validate_catch rt (AxiosError msg (Some resp)) = Throw e.
Proof.
  destruct (Stdio.validate_request rt cfg args) as [req|e0] eqn:Hreq.
  - rewrite (validate_after_request _ _ _ _ _ Hreq). cbn [fst].
    destruct (axios_post rt req) as [r|msg [resp|]] eqn:Hpost.
    + destruct (Stdio.validation_report rt (data r)) as [t|e1] eqn:Hrep;
        [discriminate|].
      rewrite validate_catch_without_response
        by (by eapply validation_report_throws_type_error). discriminate.
    + intros Hthrow. by exists req, msg, resp.
    + by rewrite validate_catch_without_response.
  - rewrite (validate_request_thrown _ _ _ _ _ Hreq). cbn [fst].
    rewrite validate_catch_without_response
      by (by eapply validate_request_throws_error). discriminate.
Qed.

(** X1: the stdio [handleValidateConfig] throws only from its [catch] block
    at work on an error response of the remote endpoint, and then in two
    situations only: the body is [null] or [undefined], so that the read of
    [error] fails; or the message read off the body has no conversion to a
    string (an object with an own [toString] property).  Every other
    failure, local or remote, comes back as a result. *)
Theorem stdio_validate_throw_cause rt cfg args log e :
  (Stdio.handleValidateConfig rt cfg args log).1 = Throw e <->
  exists req msg resp,
    Stdio.validate_request rt cfg args = Ok req /\
    axios_post rt req = Rejected msg (Some resp) /\
    ((data resp = JNull \/ data resp = JUndefined) /\
     e = TypeError (CannotRead (data resp) "error")
     \/
     exists cause,
       Stdio.response_cause rt resp = Ok cause /\
       to_string rt cause = Throw e /\
       e = TypeError CannotConvert).
Proof.
  split.
  - intros Hthrow.
    destruct (stdio_validate_throws_in_catch _ _ _ _ _ Hthrow)
      as (req & msg & resp & Hreq & Hpost & Hcatch).
    exists req, msg, resp. split; [done|]. split; [done|].
    pose proof (response_cause_outcome rt resp) as Hout.
    destruct (get (data resp) "error") as [err|e1] eqn:G.
    + right. destruct Hout as [cause Hcause]. exists cause. split; [done|].
      destruct (validate_catch_response rt msg resp cause Hcause)
        as (details & _ & Hcatch').
      rewrite Hcatch' in Hcatch.
      destruct (to_string rt cause) as [text|e2] eqn:T; [discriminate Hcatch|].
      injection Hcatch as <-. split; [done|]. by eapply to_string_throws.
    + left. unfold Stdio.validate_catch in Hcatch. cbn [exn_response] in Hcatch.
      rewrite Hout in Hcatch. injection Hcatch as <-.
      destruct (data resp); simpl in G; try discriminate G; injection G as <-; auto.
  - intros (req & msg & resp & Hreq & Hpost & Hcause).
    rewrite (validate_after_request _ _ _ _ _ Hreq), Hpost. cbn [fst].
    destruct Hcause as [[Hnull ->]|(cause & Hcause & Hconv & _)].
    + unfold Stdio.validate_catch, Stdio.response_cause. cbn [exn_response].
      by destruct Hnull as [-> | ->].
    + destruct (validate_catch_response rt msg resp cause Hcause)
        as (details & _ & ->).
      by rewrite Hconv.
Qed.

(** X2: when the remote endpoint cannot be reached (the call is rejected
    with no response), the stdio [validate_config] returns the structured
    error 'Validation Error: <cause>' with the message of the failure, or
    'Unknown error occurred' if that message is empty; the one request it
    attempted is the only one made. *)
Theorem stdio_validate_transport_failure rt cfg args req msg log :
  Stdio.validate_request rt cfg args = Ok req ->
  axios_post rt req = Rejected msg None ->
  Stdio.handleValidateConfig rt cfg args log
  = (Ok (error_result ("Validation Error: "
           ++ (if String.eqb msg "" then "Unknown error occurred" else msg))),
     (log ++ [req])%list).
Proof.
  intros Hreq Hpost. rewrite (validate_after_request _ _ _ _ _ Hreq), Hpost.
  by rewrite validate_catch_without_response.
Qed.

Lemma stdio_validate_transport_failure_example :
  Stdio.handleValidateConfig demo_runtime (Stdio.load_config (Some "secret"))
    (JObj [("type", JStr "image"); ("config", JObj [("layers", JArr [])])]) []
  = (Ok (error_result "Validation Error: connect ECONNREFUSED"),
     [validation_request (JStr "image") (JObj [("layers", JArr [])]) (JStr "secret")]).
Proof.
  exact (stdio_validate_transport_failure demo_runtime (Stdio.load_config (Some "secret"))
           (JObj [("type", JStr "image"); ("config", JObj [("layers", JArr [])])])
           (validation_request (JStr "image") (JObj [("layers", JArr [])]) (JStr "secret"))
           "connect ECONNREFUSED" [] eq_refl eq_refl).
Defined.

(** X3: when the remote endpoint answers with an error status and an object
    body, the stdio [validate_config] makes a message of the body's [error]
    if truthy, else of its [message] if truthy, else of 'API Error: <status>
    <statusText>'.  When that message converts to a string, the operation
    returns the structured error 'Validation Error: <message>', with a
    truthy [details] appended as JSON; when it does not (an object with an
    own [toString] property), the handler throws the TypeError of the
    conversion.  One request is made either way. *)
Theorem stdio_validate_remote_error rt cfg args req msg resp o log :
  Stdio.validate_request rt cfg args = Ok req ->
  axios_post rt req = Rejected msg (Some resp) ->
  data resp = JObj o ->
  let cause :=
    js_or (field o "error")
      (js_or (field o "message")
         (JStr ("API Error: " ++ number_to_string rt (status resp)
                ++ " " ++ statusText resp))) in
  Stdio.handleValidateConfig rt cfg args log
  = (match to_string rt cause with
     | Ok text =>
         Ok (error_result
               ("Validation Error: "
                ++ (if truthy (field o "details")
                    then text ++ nl ++ "Details: " ++ json_template rt (field o "details")
                    else text)))
     | Throw e => Throw e
     end,
     (log ++ [req])%list).
Proof.
  intros Hreq Hpost Hdata cause.
  rewrite (validate_after_request _ _ _ _ _ Hreq), Hpost.
  assert (Hcause : Stdio.response_cause rt resp = Ok cause).
  { unfold Stdio.response_cause. rewrite Hdata. cbn [get res_bind].
    subst cause. unfold js_or. by destruct (truthy (field o "error")). }
  destruct (validate_catch_response rt msg resp cause Hcause) as (details & Hd & ->).
  rewrite Hdata in Hd. injection Hd as <-.
  by destruct (to_string rt cause).
Qed.

Lemma stdio_validate_remote_error_example :
  Stdio.handleValidateConfig refusing_runtime (Stdio.load_config (Some "secret"))
    (JObj [("type", JStr "image"); ("config", JObj [])]) []
  = (Ok (error_result "Validation Error: Invalid layer type"),
     [validation_request (JStr "image") (JObj []) (JStr "secret")]).
Proof.
  exact (stdio_validate_remote_error refusing_runtime (Stdio.load_config (Some "secret"))
           (JObj [("type", JStr "image"); ("config", JObj [])])
           (validation_request (JStr "image") (JObj []) (JStr "secret"))
           "Request failed with status code 422"
           {| status := 422; statusText := "Unprocessable Entity";
              data := JObj [("error", JStr "Invalid layer type");
                            ("message", JStr "Validation failed on the server")] |}
           _ [] eq_refl eq_refl eq_refl).
Defined.

(** X5: a 2xx answer whose body is an object without a truthy [success] or
    without a truthy [data] is reported by the stdio [validate_config] as a
    structured error: it carries the body's [error], or 'Validation failed'
    if there is none; if that [error] has no conversion to a string, the
    [catch] block reports the TypeError of the conversion instead.  One
    request is made. *)
Theorem stdio_validate_unflagged_answer rt cfg args req r o log :
  Stdio.validate_request rt cfg args = Ok req ->
  axios_post rt req = Fulfilled r ->
  data r = JObj o ->
  truthy (field o "success") && truthy (field o "data") = false ->
  Stdio.handleValidateConfig rt cfg args log
  = (Ok (error_result
           ("Validation Error: "
            ++ match to_string rt (js_or (field o "error") (JStr "Validation failed")) with
               | Ok text => text
               | Throw e => Stdio.thrown_text rt e
               end)),
     (log ++ [req])%list).
Proof.
  intros Hreq Hpost Hdata Hflag.
  rewrite (validate_after_request _ _ _ _ _ Hreq), Hpost, Hdata.
  assert (Hreport :
    Stdio.validation_report rt (JObj o)
    = (text <- to_string rt (js_or (field o "error") (JStr "Validation failed"));;
       Ok (error_result ("Validation Error: " ++ text)))).
  { unfold Stdio.validation_report. cbn [get res_bind].
    destruct (truthy (field o "success")) eqn:S; cbn [res_bind].
    - simpl in Hflag. by rewrite Hflag.
    - by rewrite S. }
  rewrite Hreport.
  destruct (to_string rt _) as [text|e] eqn:T; cbn [res_bind]; [reflexivity|].
  rewrite validate_catch_without_response
    by (by rewrite (to_string_throws _ _ _ T)).
  reflexivity.
Qed.

Lemma stdio_validate_unflagged_answer_example :
  let answering body :=
    Demo.runtime (fun _ => Fulfilled {| status := 200; statusText := "OK"; data := body |}) in
  let call body :=
    Stdio.handleValidateConfig (answering body) (Stdio.load_config (Some "secret"))
      (JObj [("type", JStr "image"); ("config", JObj [])]) [] in
  call (JObj [("success", JBool false); ("error", JStr "Quota exceeded")])
  = (Ok (error_result "Validation Error: Quota exceeded"),
     [validation_request (JStr "image") (JObj []) (JStr "secret")]) /\
  call (JObj [("error", JObj [("toString", JNum 0)])])
  = (Ok (error_result "Validation Error: Cannot convert object to primitive value"),
     [validation_request (JStr "image") (JObj []) (JStr "secret")]).
Proof.
  intros answering call. split.
  - exact (stdio_validate_unflagged_answer
             (answering (JObj [("success", JBool false); ("error", JStr "Quota exceeded")]))
             (Stdio.load_config (Some "secret"))
             (JObj [("type", JStr "image"); ("config", JObj [])])
             (validation_request (JStr "image") (JObj []) (JStr "secret"))
             _ [("success", JBool false); ("error", JStr "Quota exceeded")] []
             eq_refl eq_refl eq_refl eq_refl).
  - exact (stdio_validate_unflagged_answer
             (answering (JObj [("error", JObj [("toString", JNum 0)])]))
             (Stdio.load_config (Some "secret"))
             (JObj [("type", JStr "image"); ("config", JObj [])])
             (validation_request (JStr "image") (JObj []) (JStr "secret"))
             _ [("error", JObj [("toString", JNum 0)])] []
             eq_refl eq_refl eq_refl eq_refl).
Defined.

Lemma http_validate_outbound rt this args log :
  exists sent,
    (Http.handleValidateConfig rt this args log).2 = (log ++ sent)%list /\
    length sent <= 1 /\
    Forall (fun q => url q = "/api/v1/jobs/validate") sent.
Proof.
  unfold Http.handleValidateConfig, try_catch, bind, lift, ret.
  destruct (destructurable args "type") as [[]|e];
    [|exists []; rewrite app_nil_r; simpl; auto].
  destruct (get args "type") as [type|e];
    [|exists []; rewrite app_nil_r; simpl; auto].
  destruct (get args "config") as [config|e];
    [|exists []; rewrite app_nil_r; simpl; auto].
  destruct (get args "apiKey") as [k|e];
    [|exists []; rewrite app_nil_r; simpl; auto].
  destruct (Http.getApiKey this k) as [key|e];
    [|exists []; rewrite app_nil_r; simpl; auto].
  unfold post.
  match goal with
  | |- context [axios_post rt ?q] =>
      exists [q]; destruct (axios_post rt q); simpl; repeat split; auto
  end.
Qed.

Lemma stdio_validate_outbound rt cfg args log :
  exists sent,
    (Stdio.handleValidateConfig rt cfg args log).2 = (log ++ sent)%list /\
    length sent <= 1 /\
    Forall (fun q => url q = "/api/v1/jobs/validate") sent.
Proof.
  destruct (Stdio.validate_request rt cfg args) as [req|e] eqn:Hreq.
  - exists [req]. rewrite (validate_after_request _ _ _ _ _ Hreq). simpl.
    repeat split; auto. constructor; [|constructor].
    by eapply validate_request_url.
  - exists []. rewrite (validate_request_thrown _ _ _ _ _ Hreq), app_nil_r.
    simpl. auto.
Qed.

(** X6: a tool call of either server makes at most one outbound request,
    appended to those made before; it goes to '/api/v1/jobs/validate', and
    only [validate_config] makes one (no retry, no other endpoint). *)
Theorem tool_call_sends_at_most_one rt cfg sch this name args log :
  (exists sent,
     (Stdio.callTool rt cfg sch name args log).2 = (log ++ sent)%list /\
     length sent <= 1 /\
     Forall (fun q => url q = "/api/v1/jobs/validate") sent /\
     (name <> "validate_config" -> sent = [])) /\
  (exists sent,
     (Http.callTool rt sch this name args log).2 = (log ++ sent)%list /\
     length sent <= 1 /\
     Forall (fun q => url q = "/api/v1/jobs/validate") sent /\
     (name <> "validate_config" -> sent = [])).
Proof.
  assert (Hnone : forall (sent : list HttpRequest),
            sent = [] ->
            length sent <= 1 /\
            Forall (fun q => url q = "/api/v1/jobs/validate") sent /\
            (name <> "validate_config" -> sent = [])).
  { intros sent ->. simpl. auto. }
  split.
  - unfold Stdio.callTool, Stdio.dispatch, try_catch, lift, ret, throw.
    destruct (String.eqb name "create_image_config").
    { exists []. rewrite app_nil_r. split; [|by apply Hnone].
      by destruct (Stdio.handleCreateImageConfig rt args). }
    destruct (String.eqb name "create_video_config").
    { exists []. rewrite app_nil_r. split; [|by apply Hnone].
      by destruct (Stdio.handleCreateVideoConfig rt args). }
    destruct (String.eqb name "validate_config") eqn:E.
    { apply String.eqb_eq in E.
      destruct (stdio_validate_outbound rt cfg args log) as (sent & Hlog & Hlen & Hurl).
      exists sent. repeat split; [|done|done|contradiction].
      by destruct (Stdio.handleValidateConfig rt cfg args log) as [[r|e] l]. }
    exists []. rewrite app_nil_r. split; [|by apply Hnone].
    by destruct (String.eqb name "get_image_schema"),
               (String.eqb name "get_video_schema").
  - unfold Http.callTool, Http.dispatch, try_catch, ret, throw.
    destruct (String.eqb name "create_image_config").
    { exists []. rewrite app_nil_r. split; [done|by apply Hnone]. }
    destruct (String.eqb name "create_video_config").
    { exists []. rewrite app_nil_r. split; [done|by apply Hnone]. }
    destruct (String.eqb name "validate_config") eqn:E.
    { apply String.eqb_eq in E.
      destruct (http_validate_outbound rt this args log) as (sent & Hlog & Hlen & Hurl).
      exists sent. repeat split; [|done|done|contradiction].
      by destruct (Http.handleValidateConfig rt this args log) as [[r|e] l]. }
    exists []. rewrite app_nil_r. split; [|by apply Hnone].
    by destruct (String.eqb name "get_image_schema"),
               (String.eqb name "get_video_schema").
Qed.

Lemma tool_call_sends_at_most_one_example :
  (Stdio.callTool demo_runtime (Stdio.load_config (Some "secret")) demo_schemas
     "create_video_config" (JObj [("clips", JArr [])]) []).2 = [].
Proof.
  destruct (proj1 (tool_call_sends_at_most_one demo_runtime
                     (Stdio.load_config (Some "secret")) demo_schemas
                     {| Http.apiKey := "secret" |} "create_video_config"
                     (JObj [("clips", JArr [])]) []))
    as (sent & Hlog & _ & _ & Hnone).
  rewrite Hlog, (Hnone ltac:(discriminate)). reflexivity.
Defined.

(** ** Further properties: the stdio configuration builders *)

Lemma truthy_defined v : truthy v = true -> defined v = true.
Proof. by destruct v. Qed.

Lemma truthy_js_or a b : truthy b = true -> truthy (js_or a b) = true.
Proof. intros Hb. unfold js_or. by destruct (truthy a) eqn:Ha. Qed.

Lemma js_or_truthy a b : truthy a = true -> js_or a b = a.
Proof. intros Ha. unfold js_or. by rewrite Ha. Qed.

Lemma field_assign_when_eq c k v o :
  field o k = JUndefined ->
  field (assign_when c k v o) k = if c then v else JUndefined.
Proof.
  intros Hk. unfold assign_when. destruct c; [|done].
  unfold field. by rewrite obj_get_assign_eq.
Qed.

(** X7: whatever bundle (an object) the stdio builders are given, the
    configuration they return carries a truthy [width], [height] and
    collection ([layers] or [clips]), and for video a truthy [fps] and
    [format]: a missing, null, zero or empty value never reaches the
    output in these fields.  The image builder always returns a
    configuration; the video builder returns one exactly when the
    comparison of [audioTracks.length] with [0] does not throw. *)
Theorem stdio_builders_fill_required rt fields :
  (exists cfg,
     Stdio.image_config (JObj fields) = Ok cfg /\
     Forall (fun k => truthy (field cfg k) = true) ["width"; "height"; "layers"]) /\
  (forall cfg,
     Stdio.video_config rt (JObj fields) = Ok cfg ->
     Forall (fun k => truthy (field cfg k) = true)
            ["width"; "height"; "fps"; "format"; "clips"]) /\
  ((exists cfg, Stdio.video_config rt (JObj fields) = Ok cfg) <->
   (exists has, nonempty rt (field fields "audioTracks") = Ok has)).
Proof.
  split; [|split].
  - destruct (image_config_returns fields) as [cfg H]. exists cfg. split; [done|].
    destruct (image_config_dimensions _ _ H) as (Hw & Hh & Hl).
    repeat apply Forall_cons_2; try apply Forall_nil_2;
      rewrite ?Hw, ?Hh, ?Hl; by apply truthy_js_or.
  - intros cfg H.
    destruct (video_config_dimensions _ _ _ H) as (Hw & Hh & Hf & Hfm & Hc).
    repeat apply Forall_cons_2; try apply Forall_nil_2;
      rewrite ?Hw, ?Hh, ?Hf, ?Hfm, ?Hc; by apply truthy_js_or.
  - pose proof (video_config_outcome rt fields) as Hout.
    destruct (nonempty rt (field fields "audioTracks")) as [has|e].
    + split; eauto.
    + rewrite Hout. split; intros [x Hx]; discriminate Hx.
Qed.

(** X8: the stdio image builder is idempotent: given a configuration it
    built, it returns that configuration unchanged, keys in the same order. *)
Theorem stdio_image_config_idempotent fields cfg :
  Stdio.image_config (JObj fields) = Ok cfg ->
  Stdio.image_config (JObj cfg) = Ok cfg.
Proof.
  unfold Stdio.image_config at 1. cbn [get res_bind]. intros [= <-].
  pose proof (truthy_js_or (field fields "width") (JNum 1920) eq_refl) as HW.
  pose proof (truthy_js_or (field fields "height") (JNum 1080) eq_refl) as HH.
  pose proof (truthy_js_or (field fields "layers") (JArr []) eq_refl) as HL.
  generalize dependent (js_or (field fields "width") (JNum 1920)). intros W HW.
  generalize dependent (js_or (field fields "height") (JNum 1080)). intros H HH.
  generalize dependent (js_or (field fields "layers") (JArr [])). intros L HL.
  generalize (field fields "backgroundColor") (field fields "format")
             (field fields "quality") (field fields "defaults").
  intros b f q d.
  unfold Stdio.image_config. cbn [get res_bind].
  destruct (defined b) eqn:Hb, (defined f) eqn:Hf, (defined q) eqn:Hq,
           (defined d) eqn:Hd;
    cbn; unfold js_or; rewrite ?HW, ?HH, ?HL, ?Hb, ?Hf, ?Hq, ?Hd; reflexivity.
Qed.

Lemma stdio_image_config_idempotent_example :
  let cfg := [("width", JNum 1920); ("height", JNum 630); ("layers", JArr []);
              ("format", JStr "png")] in
  Stdio.image_config (JObj cfg) = Ok cfg.
Proof.
  intros cfg.
  exact (stdio_image_config_idempotent
           [("height", JNum 630); ("format", JStr "png"); ("note", JStr "x")] cfg eq_refl).
Defined.

Lemma defined_if_defined v :
  defined (if defined v then v else JUndefined) = defined v.
Proof. by destruct v. Qed.

Lemma truthy_if_truthy v :
  truthy (if truthy v then v else JUndefined) = truthy v.
Proof. by destruct (truthy v) eqn:T. Qed.

Lemma assign_when_if c k v o :
  assign_when c k (if c then v else JUndefined) o = assign_when c k v o.
Proof. by destruct c. Qed.

Lemma nonempty_if rt has v :
  nonempty rt v = Ok has -> nonempty rt (if has then v else JUndefined) = Ok has.
Proof. by destruct has. Qed.

(** X9: the stdio video builder is idempotent: given a configuration it
    built, it returns that configuration unchanged, keys in the same order. *)
Theorem stdio_video_config_idempotent rt fields cfg :
  Stdio.video_config rt (JObj fields) = Ok cfg ->
  Stdio.video_config rt (JObj cfg) = Ok cfg.
Proof.
  intros Hbuilt.
  destruct (video_config_dimensions _ _ _ Hbuilt) as (EW & EH & EF & EM & EC).
  revert Hbuilt. unfold Stdio.video_config at 1. cbn [get res_bind].
  destruct (nonempty rt (field fields "audioTracks")) as [has|] eqn:Hhas;
    cbn [res_bind]; [|by intros [=]].
  intros [= Hcfg].
  assert (E1 : field cfg "fast"
               = if defined (field fields "fast") then field fields "fast" else JUndefined)
    by (rewrite <- Hcfg; skip_assigns; by apply field_assign_when_eq).
  assert (E2 : field cfg "audioFilePath"
               = if truthy (field fields "audioFilePath")
                 then field fields "audioFilePath" else JUndefined)
    by (rewrite <- Hcfg; skip_assigns; apply field_assign_when_eq; by skip_assigns).
  assert (E3 : field cfg "loopAudio"
               = if defined (field fields "loopAudio")
                 then field fields "loopAudio" else JUndefined)
    by (rewrite <- Hcfg; skip_assigns; apply field_assign_when_eq; by skip_assigns).
  assert (E4 : field cfg "outputVolume"
               = if defined (field fields "outputVolume")
                 then field fields "outputVolume" else JUndefined)
    by (rewrite <- Hcfg; skip_assigns; apply field_assign_when_eq; by skip_assigns).
  assert (E5 : field cfg "keepSourceAudio"
               = if defined (field fields "keepSourceAudio")
                 then field fields "keepSourceAudio" else JUndefined)
    by (rewrite <- Hcfg; skip_assigns; apply field_assign_when_eq; by skip_assigns).
  assert (E6 : field cfg "clipsAudioVolume"
               = if defined (field fields "clipsAudioVolume")
                 then field fields "clipsAudioVolume" else JUndefined)
    by (rewrite <- Hcfg; skip_assigns; apply field_assign_when_eq; by skip_assigns).
  assert (E7 : field cfg "audioTracks"
               = if has then field fields "audioTracks" else JUndefined)
    by (rewrite <- Hcfg; skip_assigns; apply field_assign_when_eq; by skip_assigns).
  assert (E8 : field cfg "audioNorm"
               = if truthy (field fields "audioNorm")
                 then field fields "audioNorm" else JUndefined)
    by (rewrite <- Hcfg; skip_assigns; apply field_assign_when_eq; by skip_assigns).
  assert (E9 : field cfg "defaults"
               = if truthy (field fields "defaults")
                 then field fields "defaults" else JUndefined)
    by (rewrite <- Hcfg; apply field_assign_when_eq; by skip_assigns).
  unfold Stdio.video_config. cbn [get res_bind].
  rewrite EW, EH, EF, EM, EC, E1, E2, E3, E4, E5, E6, E7, E8, E9.
  rewrite (nonempty_if _ _ _ Hhas). cbn [res_bind].
  rewrite !defined_if_defined, !truthy_if_truthy, !assign_when_if.
  rewrite !(js_or_truthy (js_or _ _)) by (by apply truthy_js_or).
  by rewrite Hcfg.
Qed.

Lemma stdio_video_config_idempotent_example :
  let cfg := [("width", JNum 1280); ("height", JNum 720); ("fps", JNum 30);
              ("format", JStr "mp4"); ("clips", JArr []); ("fast", JBool true)] in
  Stdio.video_config demo_runtime (JObj cfg) = Ok cfg.
Proof.
  intros cfg.
  exact (stdio_video_config_idempotent demo_runtime
           [("fps", JNum 30); ("fast", JBool true); ("audioTracks", JArr [])] cfg eq_refl).
Defined.

Lemma obj_get_assign_when c k k' v o :
  obj_get (assign_when c k v o) k'
  = if c && String.eqb k k' then Some v else obj_get o k'.
Proof.
  unfold assign_when. destruct c; cbn [andb]; [|done].
  destruct (String.eqb k k') eqn:E.
  - apply String.eqb_eq in E. subst. apply obj_get_assign_eq.
  - apply obj_get_assign_ne. intros ->. by rewrite String.eqb_refl in E.
Qed.

Ltac lookup_in_config :=
  rewrite !obj_get_assign_when; cbn [String.eqb Ascii.eqb Bool.eqb obj_get];
  rewrite ?andb_false_r, ?andb_true_r; cbn [obj_get String.eqb Ascii.eqb Bool.eqb].

(** The entries of the video configuration that are guarded by the
    truthiness of what was supplied. *)
Lemma video_config_optional_lookups rt fields cfg has :
  Stdio.video_config rt (JObj fields) = Ok cfg ->
  nonempty rt (field fields "audioTracks") = Ok has ->
  obj_get cfg "audioFilePath"
  = (if truthy (field fields "audioFilePath")
     then Some (field fields "audioFilePath") else None) /\
  obj_get cfg "audioNorm"
  = (if truthy (field fields "audioNorm") then Some (field fields "audioNorm") else None) /\
  obj_get cfg "defaults"
  = (if truthy (field fields "defaults") then Some (field fields "defaults") else None) /\
  obj_get cfg "audioTracks" = (if has then Some (field fields "audioTracks") else None).
Proof.
  unfold Stdio.video_config. cbn [get res_bind]. intros Hcfg Hhas.
  rewrite Hhas in Hcfg. cbn [res_bind] in Hcfg. injection Hcfg as <-.
  repeat split; lookup_in_config; reflexivity.
Qed.

(** What the comparison [v && v.length > 0] answers for each kind of
    value. *)
Lemma nonempty_string rt s : nonempty rt (JStr s) = Ok (negb (String.eqb s "")).
Proof. by destruct s. Qed.

Lemma nonempty_object rt o : nonempty rt (JObj o) = js_gt0 rt (field o "length").
Proof. reflexivity. Qed.

Lemma nonempty_scalar rt v :
  match v with
  | JUndefined | JNull | JBool _ | JNum _ => nonempty rt v = Ok false
  | _ => True
  end.
Proof. destruct v; try done; unfold nonempty; by destruct (truthy _). Qed.

(** X10: the stdio video builder leaves an optional audio field out of the
    configuration when the supplied value does not pass its guard:
    [audioFilePath], [audioNorm] and [defaults] are present exactly when
    supplied truthy (an empty string or [null] is dropped); [audioTracks] is
    present exactly when it is truthy and its [length] compares greater than
    [0], which holds of a non-empty array, of a non-empty string and of an
    object whose [length] property is greater than [0], and of no number,
    boolean, [null] or missing value. *)
Theorem stdio_video_optional_audio rt fields cfg :
  Stdio.video_config rt (JObj fields) = Ok cfg ->
  Forall (fun k => obj_get cfg k
                   = if truthy (field fields k) then Some (field fields k) else None)
         ["audioFilePath"; "audioNorm"; "defaults"] /\
  (exists has,
     nonempty rt (field fields "audioTracks") = Ok has /\
     obj_get cfg "audioTracks"
     = if has then Some (field fields "audioTracks") else None) /\
  (forall items,
     field fields "audioTracks" = JArr items ->
     obj_get cfg "audioTracks"
     = match items with [] => None | _ :: _ => Some (JArr items) end) /\
  (forall s,
     field fields "audioTracks" = JStr s ->
     obj_get cfg "audioTracks" = if String.eqb s "" then None else Some (JStr s)) /\
  (forall o,
     field fields "audioTracks" = JObj o ->
     exists longer,
       js_gt0 rt (field o "length") = Ok longer /\
       obj_get cfg "audioTracks" = if longer then Some (JObj o) else None) /\
  (match field fields "audioTracks" with
   | JUndefined | JNull | JBool _ | JNum _ => obj_get cfg "audioTracks" = None
   | _ => True
   end).
Proof.
  intros Hcfg.
  destruct (nonempty rt (field fields "audioTracks")) as [has|e] eqn:Hhas.
  2:{ pose proof (video_config_outcome rt fields) as Hout.
      rewrite Hhas, Hcfg in Hout. discriminate Hout. }
  destruct (video_config_optional_lookups _ _ _ _ Hcfg Hhas) as (E1 & E2 & E3 & E4).
  split; [by repeat apply Forall_cons_2; try apply Forall_nil_2|].
  split; [by exists has|].
  split; [|split; [|split]].
  - intros items Hitems. rewrite E4. rewrite Hitems, nonempty_array in Hhas.
    injection Hhas as <-. rewrite Hitems. by destruct items.
  - intros s Hs. rewrite E4. rewrite Hs, nonempty_string in Hhas.
    injection Hhas as <-. rewrite Hs. by destruct (String.eqb s "").
  - intros o Ho. rewrite Ho, nonempty_object in Hhas.
    exists has. split; [done|]. by rewrite E4, Ho.
  - pose proof (nonempty_scalar rt (field fields "audioTracks")) as Hscalar.
    destruct (field fields "audioTracks"); try done;
      rewrite Hscalar in Hhas; injection Hhas as <-; exact E4.
Qed.

Lemma stdio_video_optional_audio_example :
  let fields := [("clips", JArr []); ("audioFilePath", JStr ""); ("audioNorm", JNull);
                 ("audioTracks", JStr "abc")] in
  exists cfg,
    Stdio.video_config demo_runtime (JObj fields) = Ok cfg /\
    obj_get cfg "audioFilePath" = None /\ obj_get cfg "audioNorm" = None /\
    obj_get cfg "audioTracks" = Some (JStr "abc").
Proof.
  intros fields. eexists. split; [reflexivity|].
  destruct (stdio_video_optional_audio demo_runtime fields _ eq_refl)
    as (Hfalsy & _ & _ & Htracks & _).
  apply Forall_cons_1 in Hfalsy as [Hpath Hfalsy].
  apply Forall_cons_1 in Hfalsy as [Hnorm _].
  split; [exact Hpath|]. split; [exact Hnorm|].
  exact (Htracks "abc" eq_refl).
Defined.

(** X11: the stdio builders agree with the input schemas the server
    advertises.  Every key of a configuration they return is a declared
    property of the tool, and every declared property supplied with a
    truthy value is copied unchanged, except that the video builder copies
    [audioTracks] only if its [length] compares greater than [0]. *)
Theorem stdio_builders_honour_schema rt fields :
  match Registry.descriptor Registry.stdio_listTools "create_image_config",
        Registry.descriptor Registry.stdio_listTools "create_video_config" with
  | Some image, Some video =>
      (exists cfg,
         Stdio.image_config (JObj fields) = Ok cfg /\
         Forall (fun k => k ∈ Registry.tool_properties image) (keys cfg) /\
         Forall (fun k => truthy (field fields k) = true -> field cfg k = field fields k)
                (Registry.tool_properties image)) /\
      (forall cfg,
         Stdio.video_config rt (JObj fields) = Ok cfg ->
         Forall (fun k => k ∈ Registry.tool_properties video) (keys cfg) /\
         Forall (fun k => truthy (field fields k) = true ->
                          (k = "audioTracks" ->
                           nonempty rt (field fields k) = Ok true) ->
                          field cfg k = field fields k)
                (Registry.tool_properties video))
  | _, _ => False
  end.
Proof.
  cbn [Registry.descriptor Registry.stdio_listTools find Registry.tool_name
       String.eqb Ascii.eqb Bool.eqb Registry.tool_properties].
  split.
  - destruct (image_config_returns fields) as [cfg H]. exists cfg. split; [done|].
    split.
    + eapply Forall_impl; [exact (image_config_keys _ _ H)|].
      unfold image_fields. intros k. rewrite !elem_of_cons. tauto.
    + destruct (image_config_dimensions _ _ H) as (Hw & Hh & Hl).
      pose proof (image_config_copies _ _ H) as Hcopies.
      apply Forall_cons_1 in Hcopies as [Hb Hcopies].
      apply Forall_cons_1 in Hcopies as [Hf Hcopies].
      apply Forall_cons_1 in Hcopies as [Hq Hcopies].
      apply Forall_cons_1 in Hcopies as [Hd _].
      repeat apply Forall_cons_2; try apply Forall_nil_2; intros Ht;
        rewrite ?Hw, ?Hh, ?Hl; auto using js_or_truthy.
  - intros cfg H.
    split.
    + eapply Forall_impl; [exact (video_config_keys _ _ _ H)|].
      unfold video_fields. intros k. rewrite !elem_of_cons. tauto.
    + destruct (video_config_dimensions _ _ _ H) as (Hw & Hh & Hf & Hm & Hc).
      pose proof (video_config_copies _ _ _ H) as Hcopies.
      apply Forall_cons_1 in Hcopies as [C1 Hcopies].
      apply Forall_cons_1 in Hcopies as [C2 Hcopies].
      apply Forall_cons_1 in Hcopies as [C3 Hcopies].
      apply Forall_cons_1 in Hcopies as [C4 Hcopies].
      apply Forall_cons_1 in Hcopies as [C5 _].
      destruct (nonempty rt (field fields "audioTracks")) as [has|e] eqn:Hhas.
      2:{ pose proof (video_config_outcome rt fields) as Hout.
          rewrite Hhas, H in Hout. discriminate Hout. }
      destruct (video_config_optional_lookups _ _ _ _ H Hhas) as (E1 & E2 & E3 & E4).
      repeat apply Forall_cons_2; try apply Forall_nil_2; intros Ht Htracks;
        rewrite ?Hw, ?Hh, ?Hf, ?Hm, ?Hc; auto using js_or_truthy;
        unfold field at 1; rewrite ?E1, ?E2, ?E3, ?E4, ?Ht; try reflexivity.
      rewrite Hhas in Htracks. by injection (Htracks eq_refl) as ->.
Qed.

Lemma stdio_builders_honour_schema_example :
  let fields := [("width", JNum 800); ("layers", JArr []); ("quality", JNum 90)] in
  exists cfg,
    Stdio.image_config (JObj fields) = Ok cfg /\
    field cfg "width" = JNum 800 /\ field cfg "quality" = JNum 90.
Proof.
  intros fields.
  destruct (stdio_builders_honour_schema demo_runtime fields)
    as [(cfg & Hcfg & _ & Hcopy) _].
  exists cfg. split; [exact Hcfg|].
  apply Forall_cons_1 in Hcopy as [Hwidth Hcopy].
  apply Forall_cons_1 in Hcopy as [_ Hcopy].
  apply Forall_cons_1 in Hcopy as [_ Hcopy].
  apply Forall_cons_1 in Hcopy as [_ Hcopy].
  apply Forall_cons_1 in Hcopy as [Hquality _].
  split; [exact (Hwidth eq_refl)|exact (Hquality eq_refl)].
Defined.

(** ** Further properties: the advertised surface *)

(** What the handlers throw, if anything, is a TypeError of the engine. *)
Lemma get_throws v k e : get v k = Throw e -> exists what, e = TypeError what.
Proof. destruct v; simpl; intros H; try discriminate H; injection H as <-; eauto. Qed.

Lemma nonempty_throws rt v e : nonempty rt v = Throw e -> exists what, e = TypeError what.
Proof.
  unfold nonempty, js_gt0, to_primitive.
  destruct (truthy v); [|discriminate].
  destruct (get v "length") as [n|e'] eqn:G; cbn [res_bind];
    [|intros [= <-]; by eapply get_throws].
  destruct n; cbn [res_bind]; try discriminate;
    match goal with
    | |- context [to_string rt ?x] => destruct (to_string rt x) eqn:T
    end; cbn [res_bind]; try discriminate;
    intros [= <-]; rewrite (to_string_throws _ _ _ T); eauto.
Qed.

Lemma stdio_builder_throws_type_error rt args e :
  (Stdio.handleCreateImageConfig rt args = Throw e \/
   Stdio.handleCreateVideoConfig rt args = Throw e) ->
  exists what, e = TypeError what.
Proof.
  intros [H|H].
  - unfold Stdio.handleCreateImageConfig, Stdio.image_config in H.
    destruct (get args "width") eqn:G; cbn [res_bind] in H;
      [|injection H as <-; by eapply get_throws].
    destruct (get_total_once_defined _ _ "height" _ G) as [? G1].
    destruct (get_total_once_defined _ _ "layers" _ G) as [? G2].
    destruct (get_total_once_defined _ _ "backgroundColor" _ G) as [? G3].
    destruct (get_total_once_defined _ _ "format" _ G) as [? G4].
    destruct (get_total_once_defined _ _ "quality" _ G) as [? G5].
    destruct (get_total_once_defined _ _ "defaults" _ G) as [? G6].
    rewrite G1, G2, G3, G4, G5, G6 in H. discriminate H.
  - unfold Stdio.handleCreateVideoConfig, Stdio.video_config in H.
    destruct (get args "width") as [w|e'] eqn:G; cbn [res_bind] in H;
      [|injection H as <-; by eapply get_throws].
    destruct (get_total_once_defined _ _ "height" _ G) as [? G1].
    destruct (get_total_once_defined _ _ "fps" _ G) as [? G2].
    destruct (get_total_once_defined _ _ "format" _ G) as [? G3].
    destruct (get_total_once_defined _ _ "clips" _ G) as [? G4].
    destruct (get_total_once_defined _ _ "fast" _ G) as [? G5].
    destruct (get_total_once_defined _ _ "audioFilePath" _ G) as [? G6].
    destruct (get_total_once_defined _ _ "loopAudio" _ G) as [? G7].
    destruct (get_total_once_defined _ _ "outputVolume" _ G) as [? G8].
    destruct (get_total_once_defined _ _ "keepSourceAudio" _ G) as [? G9].
    destruct (get_total_once_defined _ _ "clipsAudioVolume" _ G) as [? G10].
    destruct (get_total_once_defined _ _ "audioTracks" _ G) as [tracks G11].
    destruct (get_total_once_defined _ _ "audioNorm" _ G) as [? G12].
    destruct (get_total_once_defined _ _ "defaults" _ G) as [? G13].
    rewrite G1, G2, G3, G4, G5, G6, G7, G8, G9, G10, G11 in H. cbn [res_bind] in H.
    destruct (nonempty rt tracks) as [has|e'] eqn:N; cbn [res_bind] in H.
    + rewrite G12, G13 in H. discriminate H.
    + injection H as <-. by eapply nonempty_throws.
Qed.

Lemma stdio_validate_catch_throws rt e0 e :
  Stdio.validate_catch rt e0 = Throw e -> exists what, e = TypeError what.
Proof.
  destruct (exn_response e0) as [resp|] eqn:R.
  2:{ rewrite validate_catch_without_response by done. discriminate. }
  destruct e0 as [|?|msg r]; try discriminate R. cbn [exn_response] in R. subst r.
  pose proof (response_cause_outcome rt resp) as Hout.
  destruct (get (data resp) "error") as [err|e1] eqn:G.
  - destruct Hout as [cause Hcause].
    destruct (validate_catch_response rt msg resp cause Hcause) as (d & _ & ->).
    destruct (to_string rt cause) eqn:T; cbn [res_bind]; [discriminate|].
    intros [= <-]. rewrite (to_string_throws _ _ _ T). eauto.
  - unfold Stdio.validate_catch. cbn [exn_response]. rewrite Hout. cbn [res_bind].
    intros [= <-]. by eapply get_throws.
Qed.

Lemma http_validate_catch_throws rt e0 e :
  Http.validate_catch rt e0 = Throw e -> e = TypeError CannotConvert.
Proof.
  unfold Http.validate_catch.
  match goal with
  | |- context [to_string rt ?x] => destruct (to_string rt x) eqn:T
  end; cbn [res_bind]; [discriminate|].
  intros [= <-]. by eapply to_string_throws.
Qed.

(** What a [try] throws was thrown by its [catch] block. *)
Lemma try_catch_throws {A} (m : M A) (h : exn -> res A) log e log' :
  try_catch m (fun error => lift (h error)) log = (Throw e, log') ->
  exists e0, h e0 = Throw e.
Proof.
  unfold try_catch, lift. destruct (m log) as [[a|e0] l]; [discriminate|].
  intros [= H _]. eauto.
Qed.

(** X12: the tools a server advertises are exactly the tools it handles:
    in either server the dispatch of a name ends in the 'Unknown tool'
    failure if and only if no descriptor of that name is listed. *)
Theorem advertised_tools_are_handled rt cfg sch this name args log :
  (Registry.descriptor Registry.stdio_listTools name = None <->
   Stdio.dispatch rt cfg sch name args log
   = (Throw (Error ("Unknown tool: " ++ name)), log)) /\
  (Registry.descriptor Registry.http_listTools name = None <->
   Http.dispatch rt sch this name args log
   = (Throw (Error ("Unknown tool: " ++ name)), log)).
Proof.
  unfold Registry.descriptor, Registry.stdio_listTools, Registry.http_listTools.
  cbn [find Registry.tool_name].
  rewrite !(String.eqb_sym _ name).
  unfold Stdio.dispatch, Http.dispatch, lift, ret, throw.
  destruct (String.eqb name "create_image_config") eqn:E1.
  { split.
    - split; [discriminate|]. intros [= H].
      destruct (stdio_builder_throws_type_error rt args _ (or_introl H)) as [w Hw].
      discriminate Hw.
    - split; discriminate. }
  destruct (String.eqb name "create_video_config") eqn:E2.
  { split.
    - split; [discriminate|]. intros [= H].
      destruct (stdio_builder_throws_type_error rt args _ (or_intror H)) as [w Hw].
      discriminate Hw.
    - split; discriminate. }
  destruct (String.eqb name "validate_config") eqn:E3.
  { split.
    - split; [discriminate|]. intros H.
      destruct (try_catch_throws _ _ _ _ _ H) as [e0 He0].
      destruct (stdio_validate_catch_throws _ _ _ He0) as [w Hw]. discriminate Hw.
    - split; [discriminate|]. intros H.
      destruct (try_catch_throws _ _ _ _ _ H) as [e0 He0].
      pose proof (http_validate_catch_throws _ _ _ He0) as Hw. discriminate Hw. }
  destruct (String.eqb name "get_image_schema") eqn:E4.
  { split; split; discriminate. }
  destruct (String.eqb name "get_video_schema") eqn:E5.
  { split; split; discriminate. }
  split; done.
Qed.


(** X13: the resources a server lists are exactly the resources it serves:
    reading a URI returns contents if and only if the URI is listed, and
    throws 'Unknown resource: <uri>' otherwise.  What is served under
    [schema://image] is one entry of type [application/json] with the very
    text the [get_image_schema] tool returns, and under [schema://video]
    one with the text of [get_video_schema]; the MIME type served is the
    one listed; both servers return the same schema texts. *)
Theorem listed_resources_are_served rt sch uri :
  (uri ∈ map Registry.res_uri Registry.listResources <->
   exists contents, Registry.readResource rt sch uri = Ok contents) /\
  (uri ∉ map Registry.res_uri Registry.listResources <->
   Registry.readResource rt sch uri = Throw (Error ("Unknown resource: " ++ uri))) /\
  Registry.readResource rt sch "schema://image"
  = Ok [ {| Registry.content_uri := "schema://image";
            Registry.content_mimeType := "application/json";
            Registry.content_text := text (Stdio.handleGetImageSchema rt sch) |} ] /\
  Registry.readResource rt sch "schema://video"
  = Ok [ {| Registry.content_uri := "schema://video";
            Registry.content_mimeType := "application/json";
            Registry.content_text := text (Stdio.handleGetVideoSchema rt sch) |} ] /\
  map (fun d => (Registry.res_uri d, Registry.res_mimeType d)) Registry.listResources
  = [("schema://image", "application/json"); ("schema://video", "application/json")] /\
  text (Stdio.handleGetImageSchema rt sch) = json_text rt (Stdio.imageSchema sch) /\
  text (Stdio.handleGetVideoSchema rt sch) = json_text rt (Stdio.videoSchema sch) /\
  Stdio.handleGetImageSchema rt sch = Http.handleGetImageSchema rt sch /\
  Stdio.handleGetVideoSchema rt sch = Http.handleGetVideoSchema rt sch.
Proof.
  split; [|split; [|done]];
    unfold Registry.readResource, Registry.listResources; cbn [map Registry.res_uri].
  - rewrite !elem_of_cons.
    destruct (String.eqb uri "schema://image") eqn:E1;
      [apply String.eqb_eq in E1; split; eauto|].
    destruct (String.eqb uri "schema://video") eqn:E2;
      [apply String.eqb_eq in E2; split; eauto|].
    apply String.eqb_neq in E1, E2. split.
    + intros [?|[?|H]]; [done..|by apply elem_of_nil in H].
    + intros [c H]. discriminate H.
  - rewrite !elem_of_cons.
    destruct (String.eqb uri "schema://image") eqn:E1;
      [apply String.eqb_eq in E1; split; [intros H; exfalso; eauto|discriminate]|].
    destruct (String.eqb uri "schema://video") eqn:E2;
      [apply String.eqb_eq in E2; split; [intros H; exfalso; eauto|discriminate]|].
    apply String.eqb_neq in E1, E2. split; [done|].
    intros _ [?|[?|H]]; [done..|by apply elem_of_nil in H].
Qed.

(** ** Further properties: the session multiplexer *)

(** A POST changes the session map only by creating a session, and creates
    one only for an initialize body that bears a credential and is routed to
    no session. *)
Lemma post_mcp_sessions_cases rt sdk sch newSessionId req
    (sessions : gmap string Http.JsoncutMCPServer) log :
  (Http.post_mcp rt sdk sch newSessionId req sessions log).1.2 = sessions \/
  (Http.known_session sessions (Http.mcp_session_id req) = None /\
   Http.isInitializeRequest (Http.req_body req) = true /\
   exists C, Http.x_api_key req = Some C /\ C <> "" /\
     (Http.post_mcp rt sdk sch newSessionId req sessions log).1.2
     = <[newSessionId := {| Http.apiKey := C |}]> sessions).
Proof.
  unfold Http.post_mcp, Http.answered.
  destruct (Http.known_session sessions (Http.mcp_session_id req)) as [[sid server]|].
  - left. by destruct (Http.transport_handleRequest _ _ _ _ _ _) as [[rs|e] l].
  - destruct (Http.isInitializeRequest (Http.req_body req)); cbn [negb]; [|by left].
    destruct (Http.x_api_key req) as [C|] eqn:K; cbn [Http.header_truthy negb];
      [|by left].
    destruct (String.eqb C "") eqn:E; cbn [negb]; [by left|].
    right. repeat split. exists C. repeat split.
    + intros ->. discriminate E.
    + by destruct (Http.transport_handleRequest _ _ _ _ _ _) as [[rs|e] l].
Qed.

Lemma step_preserves_credentials rt sdk sch ev
    (sessions : gmap string Http.JsoncutMCPServer) log :
  (forall sid server, sessions !! sid = Some server -> Http.apiKey server <> "") ->
  forall sid server,
    (Http.step rt sdk sch ev (sessions, log)).1 !! sid = Some server ->
    Http.apiKey server <> "".
Proof.
  intros Hinv sid server. destruct ev as [u req|req|req|closed]; simpl.
  - pose proof (post_mcp_sessions_cases rt sdk sch u req sessions log) as Hpost.
    destruct (Http.post_mcp rt sdk sch u req sessions log) as [[reply after] sent].
    simpl in *. destruct Hpost as [-> | (_ & _ & C & _ & HC & ->)]; [apply Hinv|].
    destruct (decide (u = sid)) as [->|Hne].
    + rewrite lookup_insert_eq. by intros [= <-].
    + rewrite lookup_insert_ne by done. apply Hinv.
  - unfold Http.get_mcp.
    destruct (Http.known_session sessions (Http.mcp_session_id req)) as [[s srv]|];
      apply Hinv.
  - unfold Http.delete_mcp.
    destruct (Http.known_session sessions (Http.mcp_session_id req)) as [[s srv]|];
      [|apply Hinv].
    simpl. intros H. apply lookup_delete_Some in H as [_ H]. by eapply Hinv.
  - unfold Http.transport_onclose. intros H.
    apply lookup_delete_Some in H as [_ H]. by eapply Hinv.
Qed.

(** X14: in every state the HTTP server reaches from the empty session map,
    every session in the map holds a non-empty credential; so [getApiKey]
    of a live session never throws 'API key is required' and always yields
    a truthy key, whatever [apiKey] argument a call supplies. *)
Theorem live_sessions_have_credentials rt sdk sch events sid server :
  (Http.run rt sdk sch events (∅, [])).1 !! sid = Some server ->
  Http.apiKey server <> "" /\
  forall providedKey,
    exists key, Http.getApiKey server providedKey = Ok key /\ truthy key = true.
Proof.
  assert (Hinv : forall st,
            (forall s srv, st.1 !! s = Some srv -> Http.apiKey srv <> "") ->
            forall s srv, (Http.run rt sdk sch events st).1 !! s = Some srv ->
                          Http.apiKey srv <> "").
  { unfold Http.run. induction events as [|ev events IH]; intros st Hst; [done|].
    simpl. apply IH. destruct st as [sessions log].
    by apply step_preserves_credentials. }
  intros Hlive.
  assert (Hkey : Http.apiKey server <> "").
  { eapply (Hinv (∅, [])); [|exact Hlive]. intros s srv H.
    simpl in H. by rewrite lookup_empty in H. }
  split; [done|]. intros providedKey. unfold Http.getApiKey.
  assert (Ht : truthy (js_or providedKey (JStr (Http.apiKey server))) = true).
  { apply truthy_js_or. simpl. destruct (String.eqb (Http.apiKey server) "") eqn:E;
      [apply String.eqb_eq in E; contradiction|done]. }
  rewrite Ht. eauto.
Qed.

Lemma live_sessions_have_credentials_example :
  exists key,
    Http.getApiKey {| Http.apiKey := "key-A" |} (JStr "") = Ok key /\ truthy key = true.
Proof.
  refine (proj2 (live_sessions_have_credentials demo_runtime demo_sdk demo_schemas
                   [Http.POST "s-1" {| Http.mcp_session_id := None;
                                       Http.x_api_key := Some "key-A";
                                       Http.req_body := initialize_message |}]
                   "s-1" {| Http.apiKey := "key-A" |} _) (JStr "")).
  vm_compute. reflexivity.
Defined.

(** X15: an event touches the session map at one identifier at most: the
    entry of any identifier that the event does not draw as new (POST), ask
    to delete (DELETE) or close stays exactly as it was, present or absent,
    and a GET changes nothing. *)
Theorem session_map_frame rt sdk sch ev (sessions : gmap string Http.JsoncutMCPServer)
    log sid :
  Http.keeps sid ev ->
  (Http.step rt sdk sch ev (sessions, log)).1 !! sid = sessions !! sid.
Proof.
  intros Hkeeps. destruct ev as [u req|req|req|closed]; simpl in *.
  - pose proof (post_mcp_sessions_cases rt sdk sch u req sessions log) as Hpost.
    destruct (Http.post_mcp rt sdk sch u req sessions log) as [[reply after] sent].
    simpl in *. destruct Hpost as [-> | (_ & _ & C & _ & _ & ->)]; [done|].
    by rewrite lookup_insert_ne.
  - unfold Http.get_mcp.
    by destruct (Http.known_session sessions (Http.mcp_session_id req)) as [[s srv]|].
  - unfold Http.delete_mcp.
    destruct (Http.known_session sessions (Http.mcp_session_id req)) as [[s srv]|] eqn:K;
      [|done].
    apply known_session_inv in K as [Hhdr _]. simpl.
    rewrite lookup_delete_ne; [done|]. intros ->. contradiction.
  - unfold Http.transport_onclose. by rewrite lookup_delete_ne.
Qed.

Lemma session_map_frame_example :
  let sessions : gmap string Http.JsoncutMCPServer :=
    {["s-1" := {| Http.apiKey := "key-A" |}]} in
  let ev := Http.DELETE {| Http.mcp_session_id := Some "s-2"; Http.x_api_key := None;
                           Http.req_body := JUndefined |} in
  (Http.step demo_runtime demo_sdk demo_schemas ev (sessions, [])).1 !! "s-1"
  = sessions !! "s-1".
Proof.
  intros sessions ev.
  apply (session_map_frame demo_runtime demo_sdk demo_schemas ev sessions [] "s-1").
  simpl. discriminate.
Defined.

(** X16: without a credential nothing happens: from the empty session map,
    a run of events none of which is a POST bearing both an initialize body
    and a credential leaves the map empty and reaches the remote endpoint
    not once. *)
Theorem no_credential_no_effect rt sdk sch events :
  Forall uncredentialed events ->
  Http.run rt sdk sch events (∅, []) = (∅, []).
Proof.
  unfold Http.run. induction events as [|ev events IH]; intros Hall; [done|].
  inversion Hall as [|? ? Hev Hrest]; subst. simpl.
  assert (Hnone : forall h, Http.known_session (∅ : gmap string Http.JsoncutMCPServer) h
                            = None).
  { intros [h|]; [|done]. simpl. rewrite lookup_empty. by destruct (String.eqb h ""). }
  assert (Hstep : Http.step rt sdk sch ev (∅, []) = (∅, [])).
  { destruct ev as [u req|req|req|sid]; simpl in *.
    - unfold Http.post_mcp. rewrite Hnone.
      destruct (Http.isInitializeRequest (Http.req_body req)); cbn [negb]; [|done].
      simpl in Hev. by rewrite Hev.
    - unfold Http.get_mcp. by rewrite Hnone.
    - unfold Http.delete_mcp. by rewrite Hnone.
    - unfold Http.transport_onclose. by rewrite delete_empty. }
  rewrite Hstep. by apply IH.
Qed.

Lemma no_credential_no_effect_example :
  Http.run demo_runtime demo_sdk demo_schemas
    [Http.POST "s-1" {| Http.mcp_session_id := None; Http.x_api_key := None;
                        Http.req_body := initialize_message |};
     Http.POST "s-2" {| Http.mcp_session_id := Some "s-1"; Http.x_api_key := Some "key-A";
                        Http.req_body :=
                          tools_call "validate_config"
                            (JObj [("type", JStr "image"); ("config", JObj []);
                                   ("apiKey", JStr "key-A")]) |};
     Http.DELETE {| Http.mcp_session_id := Some "s-1"; Http.x_api_key := None;
                    Http.req_body := JUndefined |}]
    (∅, [])
  = (∅, []).
Proof.
  apply no_credential_no_effect.
  repeat apply Forall_cons_2; try apply Forall_nil_2; reflexivity || exact I.
Defined.

(** X17: in the HTTP server, [validate_config] on a session that holds a
    credential does no local checking: for any arguments object it sends
    exactly one request, whose [type] and [config] are the arguments' own
    (a missing [type] is not reported, a string [config] is not parsed) and
    whose key is the [apiKey] argument if truthy and the session's
    credential otherwise.  A 2xx answer is returned as JSON whatever it
    holds.  On a failure the message is the [message] of the error body if
    truthy, else the failure's own message, else 'Validation failed': when
    it converts to a string, a structured error is returned with it,
    followed by the body's [errors] as JSON; when it does not (an object
    with an own [toString] property), the handler throws the TypeError of
    the conversion. *)
Theorem http_validate_forwards rt this o log :
  Http.apiKey this <> "" ->
  let req := validation_request (field o "type") (field o "config")
               (js_or (field o "apiKey") (JStr (Http.apiKey this))) in
  Http.handleValidateConfig rt this (JObj o) log
  = (match axios_post rt req with
     | Fulfilled resp => Ok (text_result (json_text rt (data resp)))
     | Rejected msg resp =>
         let body := match resp with Some r => data r | None => JUndefined end in
         match to_string rt (js_or (Http.opt_get body "message")
                               (js_or (JStr msg) (JStr "Validation failed"))) with
         | Ok message =>
             Ok (error_result
                   ("Validation Error: " ++ message ++ nl
                    ++ (if truthy (Http.opt_get body "errors")
                        then json_template rt (Http.opt_get body "errors")
                        else "")))
         | Throw e => Throw e
         end
     end,
     (log ++ [req])%list).
Proof.
  intros Hkey req.
  unfold Http.handleValidateConfig, try_catch, bind, lift, ret. cbn [get destructurable].
  unfold Http.getApiKey.
  assert (Ht : truthy (js_or (field o "apiKey") (JStr (Http.apiKey this))) = true).
  { apply truthy_js_or. simpl. destruct (String.eqb (Http.apiKey this) "") eqn:E;
      [apply String.eqb_eq in E; contradiction|done]. }
  rewrite Ht. cbn [negb]. unfold post. fold req.
  unfold validation_request in req. fold req.
  destruct (axios_post rt req) as [resp|msg resp]; [done|].
  unfold Http.validate_catch. cbn [exn_response exn_message].
  destruct (to_string rt _); reflexivity.
Qed.

Lemma http_validate_forwards_example :
  Http.handleValidateConfig demo_runtime {| Http.apiKey := "key-A" |}
    (JObj [("config", JStr "{not json")]) []
  = (Ok (error_result ("Validation Error: connect ECONNREFUSED" ++ nl)),
     [validation_request JUndefined (JStr "{not json") (JStr "key-A")]).
Proof.
  exact (http_validate_forwards demo_runtime {| Http.apiKey := "key-A" |}
           [("config", JStr "{not json")] [] ltac:(discriminate)).
Defined.

(** X18: every request the stdio [validate_config] prepares carries a truthy
    credential, a truthy [type] and a truthy [config] argument behind it:
    the key is the [apiKey] argument when that is truthy, and otherwise the
    non-empty value of the environment's [JSONCUT_API_KEY]; an empty
    environment value counts as none. *)
Theorem stdio_request_credential rt env args req :
  Stdio.validate_request rt (Stdio.load_config env) args = Ok req ->
  truthy (api_key_header req) = true /\
  exists type config k,
    get args "type" = Ok type /\ truthy type = true /\
    get args "config" = Ok config /\ truthy config = true /\
    get args "apiKey" = Ok k /\
    (if truthy k then api_key_header req = k
     else exists c, env = Some c /\ c <> "" /\ api_key_header req = JStr c) /\
    exists sent_config,
      body req = JObj [("type", type); ("config", sent_config)] /\
      match config with
      | JStr s => JSON_parse rt s = Some sent_config
      | _ => sent_config = config
      end.
Proof.
  unfold Stdio.validate_request.
  destruct (destructurable args "type"); cbn [res_bind]; [|discriminate].
  destruct (get args "type") as [type|] eqn:Gt; cbn [res_bind]; [|discriminate].
  destruct (get args "config") as [config|] eqn:Gc; cbn [res_bind]; [|discriminate].
  destruct (get args "apiKey") as [k|] eqn:Gk; cbn [res_bind]; [|discriminate].
  destruct (truthy type) eqn:Tt; cbn [negb]; [|discriminate].
  destruct (truthy config) eqn:Tc; cbn [negb]; [|discriminate].
  destruct (match config with
            | JStr s => match JSON_parse rt s with
                        | Some v => Ok v
                        | None => Throw (Error "Invalid config JSON string")
                        end
            | _ => Ok config
            end) as [parsed|] eqn:P; cbn [res_bind]; [|discriminate].
  unfold Stdio.getApiKey.
  destruct (truthy (js_or k (Stdio.config_apiKey (Stdio.load_config env)))) eqn:Tk;
    cbn [negb res_bind]; [|discriminate].
  intros [= <-]. cbn [api_key_header body]. split; [done|].
  exists type, config, k. repeat split; try done.
  - unfold js_or in *. destruct (truthy k); [done|].
    unfold Stdio.config_apiKey, Stdio.load_config in *. cbn [Stdio.apiKey] in *.
    destruct env as [c|]; [|discriminate Tk].
    destruct (String.eqb c "") eqn:E; [discriminate Tk|].
    exists c. repeat split. intros ->. discriminate E.
  - exists parsed. split; [done|].
    destruct config; try (by injection P as <-).
    destruct (JSON_parse rt s); [by injection P as <-|discriminate P].
Qed.

Lemma stdio_request_credential_example :
  truthy (JStr "from-env") = true.
Proof.
  exact (proj1 (stdio_request_credential demo_runtime (Some "from-env")
                  (JObj [("type", JStr "image"); ("config", JObj []); ("apiKey", JStr "")])
                  (validation_request (JStr "image") (JObj []) (JStr "from-env"))
                  eq_refl)).
Defined.

Lemma tool_call_urls rt sch this name args log :
  (forall cfg, exists sent,
     (Stdio.callTool rt cfg sch name args log).2 = (log ++ sent)%list /\
     Forall (fun q => url q = "/api/v1/jobs/validate") sent) /\
  (exists sent,
     (Http.callTool rt sch this name args log).2 = (log ++ sent)%list /\
     Forall (fun q => url q = "/api/v1/jobs/validate") sent).
Proof.
  split.
  - intros cfg. unfold Stdio.callTool, Stdio.dispatch, try_catch, lift, ret, throw.
    destruct (String.eqb name "create_image_config").
    { exists []. rewrite app_nil_r. split; [|done].
      by destruct (Stdio.handleCreateImageConfig rt args). }
    destruct (String.eqb name "create_video_config").
    { exists []. rewrite app_nil_r. split; [|done].
      by destruct (Stdio.handleCreateVideoConfig rt args). }
    destruct (String.eqb name "validate_config").
    { destruct (stdio_validate_outbound rt cfg args log) as (sent & Hlog & _ & Hurl).
      exists sent. split; [|done].
      by destruct (Stdio.handleValidateConfig rt cfg args log) as [[r|e] l]. }
    exists []. rewrite app_nil_r. split; [|done].
    by destruct (String.eqb name "get_image_schema"),
               (String.eqb name "get_video_schema").
  - unfold Http.callTool, Http.dispatch, try_catch, ret, throw.
    destruct (String.eqb name "create_image_config").
    { exists []. by rewrite app_nil_r. }
    destruct (String.eqb name "create_video_config").
    { exists []. by rewrite app_nil_r. }
    destruct (String.eqb name "validate_config").
    { destruct (http_validate_outbound rt this args log) as (sent & Hlog & _ & Hurl).
      exists sent. split; [|done].
      by destruct (Http.handleValidateConfig rt this args log) as [[r|e] l]. }
    exists []. rewrite app_nil_r. split; [|done].
    by destruct (String.eqb name "get_image_schema"),
               (String.eqb name "get_video_schema").
Qed.

(** A request to the validation endpoint with a truthy credential. *)
Lemma http_callTool_sends_credentialed rt sch this name args log :
  Http.apiKey this <> "" ->
  exists sent,
    (Http.callTool rt sch this name args log).2 = (log ++ sent)%list /\
    Forall (fun q => url q = "/api/v1/jobs/validate" /\ truthy (api_key_header q) = true)
           sent.
Proof.
  intros Hkey.
  destruct (http_callTool_credential rt sch this name args log) as (sent & Hlog & Hcred).
  destruct (proj2 (tool_call_urls rt sch this name args log)) as (sent' & Hlog' & Hurl).
  rewrite Hlog in Hlog'. apply app_inv_head in Hlog'. subst sent'.
  exists sent. split; [done|].
  apply Forall_and. split; [done|].
  eapply Forall_impl; [exact Hcred|]. intros q ->.
  apply truthy_js_or. simpl. destruct (String.eqb (Http.apiKey this) "") eqn:E;
    [apply String.eqb_eq in E; contradiction|done].
Qed.

Lemma run_calls_sends_credentialed rt sch this calls log :
  Http.apiKey this <> "" ->
  exists sent,
    (Http.run_calls rt sch this calls log).2 = (log ++ sent)%list /\
    Forall (fun q => url q = "/api/v1/jobs/validate" /\ truthy (api_key_header q) = true)
           sent.
Proof.
  intros Hkey. revert log. induction calls as [|[name args] rest IH]; intros log.
  - exists []. simpl. by rewrite app_nil_r.
  - destruct (http_callTool_sends_credentialed rt sch this name args log Hkey)
      as (sent1 & Hlog1 & Hsent1).
    destruct (run_calls_returns rt sch this [(name, args)] log) as (r1 & l1 & H1).
    simpl in H1. unfold bind, ret in H1.
    destruct (Http.callTool rt sch this name args log) as [[r|e] log1] eqn:Hcall;
      [|discriminate H1].
    simpl in Hlog1. subst log1.
    destruct (IH (log ++ sent1)%list) as (sent2 & Hlog2 & Hsent2).
    exists (sent1 ++ sent2)%list. split.
    + simpl. unfold bind at 1. rewrite Hcall. unfold bind, ret.
      destruct (Http.run_calls rt sch this rest (log ++ sent1)%list) as [[rs|e] log2];
        simpl in *; by rewrite Hlog2, app_assoc.
    + by apply Forall_app.
Qed.

(** X19: every request the HTTP server ever sends to the remote endpoint,
    in any run of events from the empty session map, goes to
    '/api/v1/jobs/validate' and carries a truthy credential. *)
Theorem http_requests_are_credentialed rt sdk sch events :
  Forall (fun q => url q = "/api/v1/jobs/validate" /\ truthy (api_key_header q) = true)
         (Http.run rt sdk sch events (∅, [])).2.
Proof.
  set (good := fun q => url q = "/api/v1/jobs/validate"
                        /\ truthy (api_key_header q) = true).
  assert (Hinv : forall st,
            (forall s srv, st.1 !! s = Some srv -> Http.apiKey srv <> "") ->
            Forall good st.2 ->
            Forall good (Http.run rt sdk sch events st).2).
  { unfold Http.run. induction events as [|ev events IH]; intros st Hcred Hlog; [done|].
    simpl. destruct st as [sessions log]. apply IH.
    - by apply step_preserves_credentials.
    - destruct ev as [u req|req|req|closed]; simpl in *; try done.
      unfold Http.post_mcp, Http.answered, Http.transport_handleRequest.
      destruct (Http.known_session sessions (Http.mcp_session_id req))
        as [[sid server]|] eqn:K.
      + apply known_session_inv in K as [_ Hsid].
        destruct (run_calls_sends_credentialed rt sch server
                    (Http.tool_calls sdk (Http.req_body req)) log (Hcred _ _ Hsid))
          as (sent & Hsent & Hgood).
        destruct (Http.run_calls rt sch server _ log) as [[rs|e] l]; simpl in *;
          subst l; by apply Forall_app.
      + destruct (Http.isInitializeRequest (Http.req_body req)); cbn [negb]; [|done].
        destruct (Http.x_api_key req) as [C|]; cbn [Http.header_truthy negb]; [|done].
        destruct (String.eqb C "") eqn:E; cbn [negb]; [done|].
        assert (HC : Http.apiKey {| Http.apiKey := default "" (Some C) |} <> "")
          by (simpl; intros ->; discriminate E).
        destruct (run_calls_sends_credentialed rt sch _
                    (Http.tool_calls sdk (Http.req_body req)) log HC)
          as (sent & Hsent & Hgood).
        destruct (Http.run_calls rt sch _ _ log) as [[rs|e] l]; simpl in *;
          subst l; by apply Forall_app. }
  apply Hinv; [|by constructor].
  intros s srv H. simpl in H. by rewrite lookup_empty in H.
Qed.

(** X20: ending a session undoes its creation: when a session is created
    under an identifier that was free, a DELETE bearing that identifier is
    answered by the session and leaves the session map exactly as it was
    before the creation, and so does the closing of its transport. *)
Theorem create_then_delete_restores rt sdk sch newSessionId init
    (sessions : gmap string Http.JsoncutMCPServer) log C req :
  Http.known_session sessions (Http.mcp_session_id init) = None ->
  Http.isInitializeRequest (Http.req_body init) = true ->
  Http.x_api_key init = Some C -> C <> "" ->
  newSessionId <> "" -> sessions !! newSessionId = None ->
  Http.mcp_session_id req = Some newSessionId ->
  let created := (Http.post_mcp rt sdk sch newSessionId init sessions log).1.2 in
  Http.delete_mcp req created = (Http.Forwarded newSessionId [], sessions) /\
  Http.transport_onclose newSessionId created = sessions.
Proof.
  intros Hknown Hinit Hkey HC Hid Hfree Hreq created.
  assert (Hcreated : created = <[newSessionId := {| Http.apiKey := C |}]> sessions)
    by by apply post_mcp_creates.
  rewrite Hcreated. unfold Http.delete_mcp, Http.transport_onclose. rewrite Hreq.
  rewrite (known_session_lookup _ newSessionId {| Http.apiKey := C |} Hid)
    by apply lookup_insert_eq.
  by rewrite delete_insert_id.
Qed.

Lemma create_then_delete_restores_example :
  let init := {| Http.mcp_session_id := None; Http.x_api_key := Some "key-A";
                 Http.req_body := initialize_message |} in
  let req := {| Http.mcp_session_id := Some "s-1"; Http.x_api_key := None;
                Http.req_body := JUndefined |} in
  Http.delete_mcp req
    (Http.post_mcp demo_runtime demo_sdk demo_schemas "s-1" init ∅ []).1.2
  = (Http.Forwarded "s-1" [], ∅).
Proof.
  intros init req.
  refine (proj1 (create_then_delete_restores demo_runtime demo_sdk demo_schemas "s-1"
                   init ∅ [] "key-A" req eq_refl eq_refl eq_refl _ _ _ eq_refl));
    [discriminate|discriminate|apply lookup_empty].
Defined.

(** ** Further properties: the text of the report *)

(** X4: when the remote endpoint answers 2xx with a success-flagged body
    that carries a validation payload, the stdio [validate_config] makes
    exactly one request and returns, as a result that is no error, the
    report read off the payload: heading and verdict, the estimated tokens
    when given, the errors in their order numbered from 1 with the field
    path when there is a non-empty one, and the detected resources with the
    size when there is a non-zero one; an empty list of errors or of
    resources prints no heading. *)
Theorem stdio_validate_success rt cfg args req r p log :
  Stdio.validate_request rt cfg args = Ok req ->
  axios_post rt req = Fulfilled r ->
  data r = success_body p ->
  Stdio.handleValidateConfig rt cfg args log
  = (Ok (text_result (JStr (report_text rt p))), (log ++ [req])%list).
Proof.
  intros Hreq Hpost Hdata.
  by rewrite (validate_after_request _ _ _ _ _ Hreq), Hpost, Hdata, report_of_payload.
Qed.

Lemma stdio_validate_success_example :
  Stdio.handleValidateConfig accepting_runtime (Stdio.load_config (Some "secret"))
    (JObj [("type", JStr "video"); ("config", JStr "{}")]) []
  = (Ok (text_result (JStr ("Validation Result:" ++ nl ++ "- Valid: ✅ Yes" ++ nl
                            ++ "- Estimated Tokens: 3" ++ nl))),
     [validation_request (JStr "video") (JObj []) (JStr "secret")]).
Proof.
  exact (stdio_validate_success accepting_runtime (Stdio.load_config (Some "secret"))
           (JObj [("type", JStr "video"); ("config", JStr "{}")])
           (validation_request (JStr "video") (JObj []) (JStr "secret"))
           _ {| isValid := true; estimatedTokens := Some 3%Z; errors := None;
                detectedResources := None |} [] eq_refl eq_refl eq_refl).
Defined.
